(** * Afib-Master: rhythm labels, windowing, dataset build and model shapes

    A shallow embedding of [src/data_loader.py], [src/dataset.py] and
    [src/model.py].  Python values are modelled as follows:

    - integers (Python [int], numpy [int64] sample indices) are [Z];
    - numpy 1-D arrays are lists, indexed from 0; slices follow Python's
      rules for negative and out-of-range bounds;
    - the [dict] [rhythm_map] is a [gmap string string];
    - a raised exception is the [Raise] case of [result]; text printed with
      [print] is collected in a log, one list element per call;
    - the libraries the code calls ([wfdb], [sklearn], [torch]) are not part
      of the repository: [wfdb.rdrecord], [wfdb.rdann] and
      [train_test_split] are section variables, and the [torch.nn] layers
      are modelled by what they do to tensor shapes. *)

From stdpp Require Import gmap strings list sorting pretty.
From Stdlib Require Import Ascii QArith.

Local Open Scope Z_scope.

(** ** Python primitives *)

(** Exceptions.  [Exception] stands for an instance of any subclass of
    Python's [Exception] (what [except Exception] catches); [BaseException]
    for the others ([KeyboardInterrupt], [SystemExit]).  The string is
    [str(e)]. *)
Inductive exn : Type :=
  | Exception (msg : string)
  | BaseException (msg : string).

Inductive result (A : Type) : Type :=
  | Ok (a : A)
  | Raise (e : exn).
Arguments Ok {A} a.
Arguments Raise {A} e.

#[global] Instance result_ret : MRet result := λ A a, Ok a.
#[global] Instance result_bind : MBind result := λ A B f r,
  match r with
  | Ok a => f a
  | Raise e => Raise e
  end.
#[global] Instance result_fmap : FMap result := λ A B f r,
  match r with
  | Ok a => Ok (f a)
  | Raise e => Raise e
  end.

(** [x = f(...) for x in xs] threaded through [result]: a [for] loop whose
    body rebinds one variable. *)
Fixpoint for_each {A B : Type} (body : B → A → result B) (xs : list A) (x : B)
  : result B :=
  match xs with
  | [] => Ok x
  | a :: xs' => x' ← body x a; for_each body xs' x'
  end.

(** Truthiness of an optional string: [None] and [''] are falsy. *)
Definition truthy (aux : option string) : bool :=
  match aux with
  | Some s => negb (String.eqb s "")
  | None => false
  end.

(** [s.startswith(p)] and [s.endswith(p)]. *)
Definition startswith (s p : string) : bool := String.prefix p s.

Definition endswith (s p : string) : bool :=
  let n := String.length s in
  let m := String.length p in
  (m <=? n)%nat && String.eqb (String.substring (n - m) m s) p.

(** [s.rfind(c)] for a one-character [c]: the last index of [c], or [None]
    where Python returns [-1]. *)
Fixpoint rfind (c : ascii) (s : string) : option nat :=
  match s with
  | EmptyString => None
  | String a s' =>
      match rfind c s' with
      | Some i => Some (S i)
      | None => if Ascii.eqb a c then Some 0%nat else None
      end
  end.

(** Bound of a slice with step 1 on a sequence of length [len]
    ([PySlice_AdjustIndices]): a negative bound counts from the end, and
    the result is clamped to [0, len]. *)
Definition slice_bound (i len : Z) : Z :=
  if bool_decide (i < 0) then Z.max (i + len) 0 else Z.min i len.

(** [l[start:stop]]. *)
Definition py_slice {A : Type} (l : list A) (start stop : Z) : list A :=
  let n := Z.of_nat (length l) in
  let a := slice_bound start n in
  let b := slice_bound stop n in
  take (Z.to_nat (b - a)) (drop (Z.to_nat a) l).

(** [l[start:stop] = v] on a numpy array: the scalar [v] is broadcast over
    the selected positions, the length never changes, and an empty
    selection changes nothing. *)
Definition np_setslice {A : Type} (l : list A) (start stop : Z) (v : A)
  : list A :=
  let n := Z.of_nat (length l) in
  let a := slice_bound start n in
  let b := slice_bound stop n in
  imap (λ i x, if bool_decide (a ≤ Z.of_nat i < b) then v else x) l.

(** [np.full(n, v)]: a negative length raises [ValueError]. *)
Definition np_full {A : Type} (n : Z) (v : A) : result (list A) :=
  if bool_decide (n < 0)
  then Raise (Exception "negative dimensions are not allowed")
  else Ok (replicate (Z.to_nat n) v).

(** [range(start, stop, step)], produced as the [for] loop consumes it:
    [fuel] bounds the number of elements and is chosen large enough in
    [py_range]. *)
Fixpoint range_up (fuel : nat) (start stop step : Z) : list Z :=
  match fuel with
  | O => []
  | S fuel' =>
      if bool_decide (start < stop)
      then start :: range_up fuel' (start + step) stop step
      else []
  end.

Fixpoint range_down (fuel : nat) (start stop step : Z) : list Z :=
  match fuel with
  | O => []
  | S fuel' =>
      if bool_decide (stop < start)
      then start :: range_down fuel' (start + step) stop step
      else []
  end.

Definition py_range (start stop step : Z) : result (list Z) :=
  if bool_decide (step = 0)
  then Raise (Exception "range() arg 3 must not be zero")
  else if bool_decide (0 < step)
  then Ok (range_up (Z.to_nat (stop - start)) start stop step)
  else Ok (range_down (Z.to_nat (start - stop)) start stop step).

(** ** data_loader.py *)

(** What [wfdb.rdann] returns, as far as the loader reads it: the sample
    index and the auxiliary note of every annotation.  A note is [None]
    for Python's [None]. *)
Record Annotation : Type := {
  sample : list Z;
  aux_note : list (option string);
}.

(** The directory [data_path] as [Path.glob] and [Path.exists] see it: the
    names of its entries in enumeration order (empty when the directory
    does not exist), and which paths exist. *)
Record Directory : Type := {
  listdir : list string;
  exists_ : string → bool;
}.

(** [Path(name).stem]: the name without its last suffix; a leading or a
    trailing dot starts no suffix. *)
Definition stem (name : string) : string :=
  match rfind "."%char name with
  | Some i =>
      if (0 <? i)%nat && (i <? String.length name - 1)%nat
      then String.substring 0 i name
      else name
  | None => name
  end.

(** [data_path.glob('*.hea')] on a case-sensitive file system: [*] matches
    any run of characters, the empty one and a leading dot included. *)
Definition glob_hea (d : Directory) : list string :=
  filter (λ name, endswith name ".hea" = true) (listdir d).

(** [AFDBDataLoader._get_records] *)
Definition _get_records (d : Directory) : list string :=
  let hea_files := glob_hea d in
  merge_sort String.le
    (filter (λ r, endswith r "-" = false) (stem <$> hea_files)).

(** The literal [rhythm_map] of [_get_rhythm_labels]. *)
Definition rhythm_map : gmap string string :=
  <["(AFIB" := "atrial_fibrillation"]>
  (<["(N" := "normal"]>
  (<["(AFL" := "atrial_flutter"]> ∅)).

(** The condition [aux and aux.startswith('(')] of the list comprehension
    building [rhythm_changes], with the pair it keeps. *)
Definition rhythm_change (ev : Z * option string) : option (Z * string) :=
  match ev.2 with
  | Some a => if truthy ev.2 && startswith a "(" then Some (ev.1, a) else None
  | None => None
  end.

(** [[(sample, aux) for sample, aux in zip(annotation.sample,
    annotation.aux_note) if ...]]; [zip] stops at the shorter list. *)
Definition rhythm_changes (annotation : Annotation) : list (Z * string) :=
  omap rhythm_change (zip (sample annotation) (aux_note annotation)).

(** One iteration of [for i, (sample, aux) in enumerate(rhythm_changes)]. *)
Definition label_segment (rhythm_changes : list (Z * string)) (sig_len : Z)
    (labels : list string) (i : nat) : list string :=
  match rhythm_changes !! i with
  | Some (sample, aux) =>
      let next_sample :=
        if bool_decide (i + 1 < length rhythm_changes)%nat
        then (default (0, "") (rhythm_changes !! (i + 1)%nat)).1
        else sig_len in
      let rhythm_name := default "other" (rhythm_map !! aux) in
      np_setslice labels sample next_sample rhythm_name
  | None => labels
  end.

(** [AFDBDataLoader._get_rhythm_labels] *)
Definition _get_rhythm_labels (annotation : Annotation) (sig_len : Z)
  : result (list string) :=
  labels ← np_full sig_len "unknown";
  let rhythm_changes := rhythm_changes annotation in
  Ok (foldl (label_segment rhythm_changes sig_len) labels
        (seq 0 (length rhythm_changes))).

(** What [wfdb.rdrecord] returns, as far as the code reads it.  [F] is
    the type of a signal value (a float, possibly NaN).  The loader is
    always called with [channels=[0]], so [p_signal] has shape
    [(sig_len, 1)]; the record keeps that single column. *)
Record WfdbRecord (F : Type) : Type := {
  p_signal : list F;
  fs : Q;
  sig_len : Z;
}.
Arguments p_signal {F} _.
Arguments fs {F} _.
Arguments sig_len {F} _.

(** The [dict] returned by [load_record]; [rhythm_labels] is [None] for
    Python's [None]. *)
Record LoadedRecord (F : Type) : Type := {
  ld_record_name : string;
  ld_signal : list F;
  ld_fs : Q;
  ld_sig_len : Z;
  ld_duration : Q;
  ld_rhythm_labels : option (list string);
}.
Arguments ld_record_name {F} _.
Arguments ld_signal {F} _.
Arguments ld_fs {F} _.
Arguments ld_sig_len {F} _.
Arguments ld_duration {F} _.
Arguments ld_rhythm_labels {F} _.

(** [a / b] on Python numbers. *)
Definition py_truediv (a b : Q) : result Q :=
  if Qeq_bool b 0 then Raise (Exception "division by zero") else Ok (a / b)%Q.

(** [str(self.data_path / record_name)] for a plain record name. *)
Definition record_path (data_path record_name : string) : string :=
  data_path +:+ "/" +:+ record_name.

Section Loader.
Context {F : Type}.
(** [wfdb.rdrecord(record_path, channels=...)]; the second argument is
    [None] when [channels] is not passed. *)
Variable rdrecord : string → option (list Z) → result (WfdbRecord F).
(** [wfdb.rdann(record_path, extension)] *)
Variable rdann : string → string → result Annotation.

(** [AFDBDataLoader.load_record].  The bare [except:] catches every
    exception of the [try] body. *)
Definition load_record (data_path record_name : string)
    (channels : option (list Z)) : result (LoadedRecord F) :=
  let record_path := record_path data_path record_name in
  record ←
    match channels with
    | Some (_ :: _) => rdrecord record_path channels
    | _ => rdrecord record_path None
    end;
  let rhythm_labels :=
    match
      annotation ← rdann record_path "atr";
      _get_rhythm_labels annotation (sig_len record)
    with
    | Ok labels => Some labels
    | Raise _ => None
    end in
  duration ← py_truediv (inject_Z (sig_len record)) (fs record);
  Ok {| ld_record_name := record_name;
        ld_signal := p_signal record;
        ld_fs := fs record;
        ld_sig_len := sig_len record;
        ld_duration := duration;
        ld_rhythm_labels := rhythm_labels |}.
End Loader.

(** ** dataset.py *)

(** A numpy array after [squeeze()]: a column of one element becomes a
    0-d array, which has no [len]. *)
Inductive ndarray (F : Type) : Type :=
  | Scalar (x : F)
  | Vector (l : list F).
Arguments Scalar {F} x.
Arguments Vector {F} l.

(** [data['signal'].squeeze()] on an array of shape [(n, 1)]. *)
Definition squeeze {F : Type} (column : list F) : ndarray F :=
  match column with
  | [x] => Scalar x
  | _ => Vector column
  end.

Definition py_len {F : Type} (a : ndarray F) : result Z :=
  match a with
  | Scalar _ => Raise (Exception "len() of unsized object")
  | Vector l => Ok (Z.of_nat (length l))
  end.

(** [a[start:end]] *)
Definition nd_slice {F : Type} (a : ndarray F) (start stop : Z)
  : result (list F) :=
  match a with
  | Scalar _ => Raise (Exception "too many indices for array")
  | Vector l => Ok (py_slice l start stop)
  end.

(** [a.sum()] of an integer array. *)
Definition np_sum (l : list Z) : Z := foldr Z.add 0 l.

(** [np.mean] of an integer array, as an exact rational: [None] is the
    NaN of an empty array.  For 0/1 labels the sum is exact in double
    precision and the rounded quotient lies on the same side of 0.5 as
    the exact one for every array of fewer than 2^52 elements. *)
Definition np_mean (l : list Z) : option Q :=
  match l with
  | [] => None
  | _ => Some (inject_Z (np_sum l) / inject_Z (Z.of_nat (length l)))%Q
  end.

(** [m >= 0.5]; a comparison with NaN is false. *)
Definition ge_half (m : option Q) : bool :=
  match m with
  | Some q => Qle_bool (1 # 2) q
  | None => false
  end.

(** [np.array(rows)] of a list of 1-D arrays: rows of different lengths
    raise [ValueError]. *)
Definition np_array_rows {F : Type} (rows : list (list F))
  : result (list (list F)) :=
  match rows with
  | [] => Ok []
  | r :: _ =>
      if forallb (λ r', bool_decide (length r' = length r)) rows
      then Ok rows
      else Raise (Exception "inhomogeneous shape")
  end.

(** The body of the [for start in range(...)] loop of [create_windows],
    on the pair [(windows, window_labels)]. *)
Definition window_step {F : Type} (signal : ndarray F) (labels : list Z)
    (window_size : Z) (acc : list (list F) * list Z) (start : Z)
  : result (list (list F) * list Z) :=
  let end_ := start + window_size in
  w ← nd_slice signal start end_;
  Ok (acc.1 ++ [w],
      acc.2 ++ [if ge_half (np_mean (py_slice labels start end_))
                then 1 else 0]).

(** [create_windows] *)
Definition create_windows {F : Type} (signal : ndarray F) (labels : list Z)
    (window_size stride : Z) : result (list (list F) * list Z) :=
  n ← py_len signal;
  starts ← py_range 0 (n - window_size + 1) stride;
  acc ← for_each (window_step signal labels window_size) starts ([], []);
  windows ← np_array_rows acc.1;
  Ok (windows, acc.2).

(** The lists [process_records] appends to, and what it has printed. *)
Record Accum (F : Type) : Type := {
  all_windows : list (list (list F));
  all_labels : list (list Z);
  printed : list string;
}.
Arguments all_windows {F} _.
Arguments all_labels {F} _.
Arguments printed {F} _.

(** [(rhythm_labels == 'atrial_fibrillation').astype(int)] *)
Definition binary_labels_of (rhythm_labels : list string) : list Z :=
  (λ name, if String.eqb name "atrial_fibrillation" then 1 else 0)
    <$> rhythm_labels.

(** [labels.sum()] as the f-string shows it: the array built from an empty
    list is a float array, whose sum prints as [0.0]. *)
Definition show_sum (labels : list Z) : string :=
  match labels with
  | [] => "0.0"
  | _ => pretty (np_sum labels)
  end.

(** [np.atleast_2d] on what [create_windows] returns: the empty array has
    shape [(0,)] and becomes one row of length 0. *)
Definition atleast_2d {F : Type} (a : list (list F)) : list (list F) :=
  match a with
  | [] => [[]]
  | _ => a
  end.

(** [np.vstack]: the rows of all arrays must have one length. *)
Definition np_vstack {F : Type} (arrs : list (list (list F)))
  : result (list (list F)) :=
  match concat (atleast_2d <$> arrs) with
  | [] => Raise (Exception "need at least one array to concatenate")
  | r :: rows =>
      if forallb (λ r', bool_decide (length r' = length r)) rows
      then Ok (r :: rows)
      else Raise (Exception
        "all the input array dimensions except for the concatenation axis must match exactly")
  end.

Section Builder.
Context {F : Type}.
Variable rdrecord : string → option (list Z) → result (WfdbRecord F).
Variable rdann : string → string → result Annotation.
(** [sklearn.model_selection.train_test_split(records, test_size=...,
    random_state=...)]: with an integer [random_state] every call seeds
    its own generator, so the result is a function of the arguments. *)
Variable train_test_split :
  list string → Q → Z → result (list string * list string).

Variable data_path : string.
Variables window_size stride : Z.

(** The [try] body of [process_records] for one record; [continue]
    leaves the accumulators as they are. *)
Definition try_record (acc : Accum F) (record : string)
  : result (Accum F) :=
  data ← load_record rdrecord rdann data_path record (Some [0]);
  let signal := squeeze (ld_signal data) in
  match ld_rhythm_labels data with
  | None => Ok acc
  | Some rhythm_labels =>
      let binary_labels := binary_labels_of rhythm_labels in
      wl ← create_windows signal binary_labels window_size stride;
      let '(windows, labels) := wl in
      Ok {| all_windows := all_windows acc ++ [windows];
            all_labels := all_labels acc ++ [labels];
            printed := printed acc ++
              [record +:+ ": " +:+ pretty (length windows) +:+ " windows ("
                 +:+ show_sum labels +:+ " AF)"] |}
  end.

(** One iteration of [for record in record_list], with its
    [except Exception as e] handler. *)
Definition process_record (acc : Accum F) (record : string)
  : result (Accum F) :=
  match try_record acc record with
  | Ok acc' => Ok acc'
  | Raise (Exception msg) =>
      Ok {| all_windows := all_windows acc;
            all_labels := all_labels acc;
            printed := printed acc ++
              ["Error with " +:+ record +:+ ": " +:+ msg] |}
  | Raise (BaseException msg) => Raise (BaseException msg)
  end.

(** The loop of [process_records], started from what was printed so
    far. *)
Definition process_loop (record_list : list string) (out : list string)
  : result (Accum F) :=
  for_each process_record record_list
    {| all_windows := []; all_labels := []; printed := out |}.

(** [process_records]: the two arrays and the output so far. *)
Definition process_records (record_list : list string) (out : list string)
  : result (list (list F) * list Z * list string) :=
  acc ← process_loop record_list out;
  match all_windows acc with
  | [] => Ok ([], [], printed acc)
  | _ =>
      X ← np_vstack (all_windows acc);
      Ok (X, concat (all_labels acc), printed acc)
  end.

(** The records of the catalog that have a [.dat] file. *)
Definition usable_records (d : Directory) : list string :=
  filter (λ r, exists_ d (r +:+ ".dat") = true) (_get_records d).

(** The record-level split of [build_datasets]. *)
Definition split_records (d : Directory) (test_size : Q)
  : result (list string * list string) :=
  train_test_split (usable_records d) test_size 42.

(** What [build_datasets] has computed and printed when it wraps the
    arrays in [AFDataset]; the statistics printed afterwards and the
    pickling are left out. *)
Record Built : Type := {
  train_records : list string;
  test_records : list string;
  train_Xy : list (list F) * list Z;
  test_Xy : list (list F) * list Z;
  output : list string;
}.

Definition build_datasets (d : Directory) (test_size : Q) : result Built :=
  let out :=
    ["Found " +:+ pretty (length (_get_records d)) +:+ " records in "
       +:+ data_path] in
  split ← split_records d test_size;
  let '(train_records, test_records) := split in
  let out := out ++
    ["Train records: " +:+ pretty (length train_records)
       +:+ ", Test records: " +:+ pretty (length test_records)] in
  let out := out ++ ["
Processing train records..."] in
  train ← process_records train_records out;
  let '(train_X, train_y, out) := train in
  let out := out ++ ["
Processing test records..."] in
  test ← process_records test_records out;
  let '(test_X, test_y, out) := test in
  Ok {| train_records := train_records;
        test_records := test_records;
        train_Xy := (train_X, train_y);
        test_Xy := (test_X, test_y);
        output := out |}.
End Builder.

(** ** model.py

    The layers of [torch.nn] act on tensors; the properties proved below
    concern their effect on the shape ([torch.Size], a list of
    dimensions), so a tensor is modelled by its shape and a layer's
    [forward] by a function from shape to shape that raises where the
    layer does.  [training] is the mode flag of [nn.Module] ([True] after
    construction, [False] after [model.eval()]). *)

Definition shape : Type := list Z.

Inductive padding_mode : Type :=
  | NoPadding
  | Same.

#[global] Instance padding_mode_eq_dec : EqDecision padding_mode.
Proof. solve_decision. Defined.

Record Conv1d : Type := {
  conv_in_channels : Z;
  conv_out_channels : Z;
  conv_kernel_size : Z;
  conv_stride : Z;
  conv_padding : padding_mode;
}.

Record BatchNorm1d : Type := { num_features : Z }.

Record AvgPool1d : Type := { pool_kernel_size : Z }.

Record AdaptiveAvgPool1d : Type := { pool_output_size : Z }.

Record Linear : Type := {
  in_features : Z;
  out_features : Z;
}.

(** [nn.Conv1d(in_channels, out_channels, kernel_size, stride=stride,
    padding=...)]: the weight has shape
    [(out_channels, in_channels, kernel_size)], and [padding='same'] is
    refused for a strided convolution. *)
Definition Conv1d_init (in_channels out_channels kernel_size stride : Z)
    (padding : padding_mode) : result Conv1d :=
  if bool_decide (in_channels < 0 ∨ out_channels < 0 ∨ kernel_size < 0)
  then Raise (Exception "negative dimension")
  else if bool_decide (stride ≤ 0)
  then Raise (Exception "non-positive stride is not supported")
  else if bool_decide (padding = Same ∧ stride ≠ 1)
  then Raise (Exception
         "padding='same' is not supported for strided convolutions")
  else Ok {| conv_in_channels := in_channels;
             conv_out_channels := out_channels;
             conv_kernel_size := kernel_size;
             conv_stride := stride;
             conv_padding := padding |}.

Definition Linear_init (in_features out_features : Z) : result Linear :=
  if bool_decide (in_features < 0 ∨ out_features < 0)
  then Raise (Exception "negative dimension")
  else Ok {| in_features := in_features; out_features := out_features |}.

(** Output length of a convolution over a sequence of length [len]. *)
Definition conv_out_len (c : Conv1d) (len : Z) : result Z :=
  match conv_padding c with
  | Same => Ok len
  | NoPadding =>
      if bool_decide (len < conv_kernel_size c)
      then Raise (Exception "Kernel size can't be greater than actual input size")
      else Ok ((len - conv_kernel_size c) `div` conv_stride c + 1)
  end.

(** [Conv1d.forward] on a batched [(N, C, L)] or unbatched [(C, L)]
    input. *)
Definition Conv1d_forward (c : Conv1d) (x : shape) : result shape :=
  match x with
  | [n; ch; len] =>
      if bool_decide (ch = conv_in_channels c)
      then len' ← conv_out_len c len; Ok [n; conv_out_channels c; len']
      else Raise (Exception "input channels do not match the weight")
  | [ch; len] =>
      if bool_decide (ch = conv_in_channels c)
      then len' ← conv_out_len c len; Ok [conv_out_channels c; len']
      else Raise (Exception "input channels do not match the weight")
  | _ => Raise (Exception "Expected 2D (unbatched) or 3D (batched) input to conv1d")
  end.

(** [BatchNorm1d.forward] on [(N, C)] or [(N, C, L)]: in training mode
    there must be more than one value per channel. *)
Definition BatchNorm1d_forward (training : bool) (bn : BatchNorm1d)
    (x : shape) : result shape :=
  match x with
  | [n; ch] | [n; ch; _] =>
      let per_channel := match x with [_; _; len] => n * len | _ => n end in
      if negb (bool_decide (ch = num_features bn))
      then Raise (Exception "running_mean should contain as many elements as channels")
      else if training && bool_decide (per_channel = 1)
      then Raise (Exception "Expected more than 1 value per channel when training")
      else Ok x
  | _ => Raise (Exception "expected 2D or 3D input")
  end.

Definition ReLU_forward (x : shape) : result shape := Ok x.

(** [AvgPool1d(kernel_size=k)]: the stride defaults to [k]; an empty
    output is refused. *)
Definition AvgPool1d_forward (p : AvgPool1d) (x : shape) : result shape :=
  let out len := (len - pool_kernel_size p) `div` pool_kernel_size p + 1 in
  match x with
  | [n; ch; len] =>
      if bool_decide (out len < 1)
      then Raise (Exception "Output size is too small")
      else Ok [n; ch; out len]
  | [ch; len] =>
      if bool_decide (out len < 1)
      then Raise (Exception "Output size is too small")
      else Ok [ch; out len]
  | _ => Raise (Exception "Expected 2D or 3D input to avg_pool1d")
  end.

Definition AdaptiveAvgPool1d_forward (p : AdaptiveAvgPool1d) (x : shape)
  : result shape :=
  match x with
  | [n; ch; len] =>
      if bool_decide (len ≤ 0)
      then Raise (Exception "Expected input to have non-zero size for non-batch dimensions")
      else Ok [n; ch; pool_output_size p]
  | [ch; len] =>
      if bool_decide (len ≤ 0)
      then Raise (Exception "Expected input to have non-zero size for non-batch dimensions")
      else Ok [ch; pool_output_size p]
  | _ => Raise (Exception "Expected 2D or 3D input to adaptive_avg_pool1d")
  end.

(** [x.squeeze(-1)]: the last dimension is dropped when it is 1. *)
Definition squeeze_last (x : shape) : shape :=
  match reverse x with
  | 1 :: rest => reverse rest
  | _ => x
  end.

(** [Linear.forward]: the last dimension is [in_features] and becomes
    [out_features]. *)
Definition Linear_forward (fc : Linear) (x : shape) : result shape :=
  match reverse x with
  | last :: rest =>
      if bool_decide (last = in_features fc)
      then Ok (reverse (out_features fc :: rest))
      else Raise (Exception "mat1 and mat2 shapes cannot be multiplied")
  | [] => Raise (Exception "both arguments to linear need to be at least 1D")
  end.

(** Broadcasting of two shapes, dimensions listed from the last one. *)
Fixpoint broadcast_rev (a b : list Z) : result (list Z) :=
  match a, b with
  | [], _ => Ok b
  | _, [] => Ok a
  | x :: a', y :: b' =>
      if bool_decide (x = y ∨ y = 1)
      then (λ r, x :: r) <$> broadcast_rev a' b'
      else if bool_decide (x = 1)
      then (λ r, y :: r) <$> broadcast_rev a' b'
      else Raise (Exception "The size of tensor a must match the size of tensor b")
  end.

(** The shape of [a + b]. *)
Definition tensor_add (a b : shape) : result shape :=
  reverse <$> broadcast_rev (reverse a) (reverse b).

Record KanResInit : Type := {
  init_conv1 : Conv1d;
  init_bn1 : BatchNorm1d;
  init_conv2 : Conv1d;
  init_bn2 : BatchNorm1d;
}.

(** [KanResInit.__init__] *)
Definition KanResInit_init
    (in_channels filterno_1 filterno_2 filtersize_1 filtersize_2 stride : Z)
  : result KanResInit :=
  conv1 ← Conv1d_init in_channels filterno_1 filtersize_1 stride NoPadding;
  conv2 ← Conv1d_init filterno_1 filterno_2 filtersize_2 1 NoPadding;
  Ok {| init_conv1 := conv1;
        init_bn1 := {| num_features := filterno_1 |};
        init_conv2 := conv2;
        init_bn2 := {| num_features := filterno_2 |} |}.

(** [KanResInit.forward] *)
Definition KanResInit_forward (training : bool) (m : KanResInit) (x : shape)
  : result shape :=
  x ← Conv1d_forward (init_conv1 m) x;
  x ← BatchNorm1d_forward training (init_bn1 m) x;
  x ← ReLU_forward x;
  x ← Conv1d_forward (init_conv2 m) x;
  x ← BatchNorm1d_forward training (init_bn2 m) x;
  x ← ReLU_forward x;
  Ok x.

Record KanResModule : Type := {
  res_conv1 : Conv1d;
  res_bn1 : BatchNorm1d;
  res_conv2 : Conv1d;
  res_bn2 : BatchNorm1d;
}.

(** [KanResModule.__init__] *)
Definition KanResModule_init
    (in_channels filterno_1 filterno_2 filtersize_1 filtersize_2 stride : Z)
  : result KanResModule :=
  conv1 ← Conv1d_init in_channels filterno_1 filtersize_1 stride Same;
  conv2 ← Conv1d_init filterno_1 filterno_2 filtersize_2 1 Same;
  Ok {| res_conv1 := conv1;
        res_bn1 := {| num_features := filterno_1 |};
        res_conv2 := conv2;
        res_bn2 := {| num_features := filterno_2 |} |}.

(** [KanResModule.forward] *)
Definition KanResModule_forward (training : bool) (m : KanResModule)
    (x : shape) : result shape :=
  let identity := x in
  out ← Conv1d_forward (res_conv1 m) x;
  out ← BatchNorm1d_forward training (res_bn1 m) out;
  out ← ReLU_forward out;
  out ← Conv1d_forward (res_conv2 m) out;
  out ← BatchNorm1d_forward training (res_bn2 m) out;
  out ← ReLU_forward out;
  out ← tensor_add out identity;
  Ok out.

Record KanResWideX : Type := {
  init_block : KanResInit;
  pool : AvgPool1d;
  res_modules : list KanResModule;
  global_pool : AdaptiveAvgPool1d;
  fc : Linear;
}.

(** [[KanResModule(...) for _ in range(8)]] *)
Fixpoint modules_of (n : nat) (mk : result KanResModule)
  : result (list KanResModule) :=
  match n with
  | O => Ok []
  | S n' => m ← mk; ms ← modules_of n' mk; Ok (m :: ms)
  end.

(** [KanResWideX.__init__]; the defaults are [input_channels=1] and
    [output_size=4]. *)
Definition KanResWideX_init (input_channels output_size : Z)
  : result KanResWideX :=
  init_block ← KanResInit_init input_channels 64 32 8 3 1;
  res_modules ← modules_of 8 (KanResModule_init 32 64 32 50 50 1);
  fc ← Linear_init 32 output_size;
  Ok {| init_block := init_block;
        pool := {| pool_kernel_size := 2 |};
        res_modules := res_modules;
        global_pool := {| pool_output_size := 1 |};
        fc := fc |}.


(** [KanResWideX.forward] *)
Definition KanResWideX_forward (training : bool) (m : KanResWideX)
    (x : shape) : result shape :=
  x ← KanResInit_forward training (init_block m) x;
  x ← AvgPool1d_forward (pool m) x;
  x ← for_each (λ x res_module, KanResModule_forward training res_module x)
        (res_modules m) x;
  x ← AdaptiveAvgPool1d_forward (global_pool m) x;
  let x := squeeze_last x in
  x ← Linear_forward (fc m) x;
  Ok x.

(** ** Vocabulary of the statements *)

(** The name [_get_rhythm_labels] writes for a boundary marker. *)
Definition rhythm_name (aux : string) : string :=
  default "other" (rhythm_map !! aux).

(** The sample index where the segment of boundary [i] ends: the next
    boundary's index, or the signal length after the last boundary. *)
Definition segment_end (rc : list (Z * string)) (i : nat) (sig_len : Z) : Z :=
  match rc !! S i with
  | Some (s', _) => s'
  | None => sig_len
  end.

(** An event is a rhythm boundary when its auxiliary string is present and
    begins with an opening parenthesis. *)
Definition is_boundary (ev : Z * option string) : Prop :=
  ∃ a, ev.2 = Some a ∧ String.prefix "(" a = true.

#[global] Instance is_boundary_dec ev : Decision (is_boundary ev).
Proof.
  destruct ev as [s [a|]]; unfold is_boundary; simpl.
  - destruct (String.prefix "(" a) eqn:Hp.
    + left. eauto.
    + right. intros (a' & [= <-] & Ha). congruence.
  - right. intros (a' & [=] & _).
Defined.

Definition label_names : list string :=
  ["unknown"; "atrial_fibrillation"; "normal"; "atrial_flutter"; "other"].

(** The number of windows of size [W] taken every [S] samples from a
    signal of length [L]. *)
Definition window_count (L W S : Z) : Z :=
  if bool_decide (L < W) then 0 else (L - W) `div` S + 1.

(** The label [create_windows] gives the window starting at [start]. *)
Definition window_label (labels : list Z) (window_size start : Z) : Z :=
  if ge_half (np_mean (py_slice labels start (start + window_size)))
  then 1 else 0.

(** The residual block [KanResModule(32, 64, 32, 50, 50, 1)] once
    constructed. *)
Definition res_block : KanResModule :=
  {| res_conv1 := {| conv_in_channels := 32; conv_out_channels := 64;
                     conv_kernel_size := 50; conv_stride := 1;
                     conv_padding := Same |};
     res_bn1 := {| num_features := 64 |};
     res_conv2 := {| conv_in_channels := 64; conv_out_channels := 32;
                     conv_kernel_size := 50; conv_stride := 1;
                     conv_padding := Same |};
     res_bn2 := {| num_features := 32 |} |}.

(** The sequence length that reaches the residual stack for a window of
    length [len]: the stem removes 7 and 2 samples, the pooling halves. *)
Definition pooled_length (len : Z) : Z := (len - 9) `div` 2.

(** ** Concrete inputs *)

(** A record of three samples at 250 Hz whose annotation file is
    missing. *)
Definition rdrecord_three_samples (path : string) (channels : option (list Z))
  : result (WfdbRecord Z) :=
  Ok {| p_signal := [0; 0; 0]; fs := 250; sig_len := 3 |}.

Definition rdann_missing (path extension : string) : result Annotation :=
  Raise (Exception "No such file or directory").

(** A split that sends the first record to the test set. *)
Definition split_first (records : list string) (test_size : Q)
    (random_state : Z) : result (list string * list string) :=
  Ok (drop 1 records, take 1 records).

(** Boundaries at samples 0, 100 and 250 of a signal of length 300, with
    beat annotations in between. *)
Definition three_rhythms : Annotation :=
  {| sample := [0; 40; 100; 180; 250];
     aux_note := [Some "(N"; Some ""; Some "(AFIB"; None; Some "(N"] |}.

(** Boundaries out of order and past the end of a signal of length 10. *)
Definition reversed_rhythms : Annotation :=
  {| sample := [20; 5]; aux_note := [Some "(N"; Some "(AFIB"] |}.

Definition ramp : list Z := seqZ 0 20.

Definition half_af : list Z :=
  [0; 0; 0; 0; 0; 0; 0; 0; 0; 0; 1; 1; 1; 1; 1; 1; 1; 1; 1; 1].

(** A record that cannot be read at all. *)
Definition rdrecord_unreadable (path : string) (channels : option (list Z))
  : result (WfdbRecord Z) :=
  Raise (Exception "No such file or directory").

(** One directory enumerated in two orders. *)
Definition dir_ab : Directory :=
  {| listdir := ["04015.hea"; "04043.hea"]; exists_ := λ _, true |}.

Definition dir_ba : Directory :=
  {| listdir := ["04043.hea"; "04015.hea"]; exists_ := λ _, true |}.

(** ** data_loader.py: [get_stats]

    The durations are floating-point numbers in the code and exact
    rationals here; the test [total > 0] has the same outcome in both,
    since a quotient of a count by the sampling frequency has the sign of
    the exact quotient.  The [:.1f] formatting of the printed totals is a
    parameter. *)

(** One [dict] appended to [stats]. *)
Record StatRow : Type := {
  st_record : string;
  af_duration_h : Q;
  normal_duration_h : Q;
  af_percent : Q;
}.

(** [(labels == name).sum()] *)
Definition count_label (name : string) (labels : list string) : Z :=
  Z.of_nat (length (filter (λ x, x = name) labels)).

(** [x > 0] *)
Definition Qpositive (x : Q) : bool := negb (Qle_bool x 0).

(** [df[column].sum()] *)
Definition column_sum (column : StatRow → Q) (rows : list StatRow) : Q :=
  foldr Qplus 0%Q (column <$> rows).

Record StatsAccum : Type := {
  stats : list StatRow;
  stats_printed : list string;
}.

Section Stats.
Context {F : Type}.
Variable rdrecord : string → option (list Z) → result (WfdbRecord F).
Variable rdann : string → string → result Annotation.
(** [f"{x:.1f}"] *)
Variable format_1f : Q → string.
Variable data_path : string.

(** The [try] body of the loop of [get_stats]. *)
Definition stats_try (acc : StatsAccum) (record : string)
  : result StatsAccum :=
  data ← load_record rdrecord rdann data_path record (Some [0]);
  match ld_rhythm_labels data with
  | None => Ok acc
  | Some labels =>
      let af_duration :=
        (inject_Z (count_label "atrial_fibrillation" labels) / ld_fs data)%Q in
      let normal_duration :=
        (inject_Z (count_label "normal" labels) / ld_fs data)%Q in
      let total := (af_duration + normal_duration)%Q in
      if Qpositive total
      then Ok {| stats := stats acc ++
                   [{| st_record := record;
                       af_duration_h := (af_duration / 3600)%Q;
                       normal_duration_h := (normal_duration / 3600)%Q;
                       af_percent := (af_duration / total * 100)%Q |}];
                 stats_printed := stats_printed acc |}
      else Ok acc
  end.

(** One iteration of [for record in self.records], with its handler. *)
Definition stats_record (acc : StatsAccum) (record : string)
  : result StatsAccum :=
  match stats_try acc record with
  | Ok acc' => Ok acc'
  | Raise (Exception msg) =>
      Ok {| stats := stats acc;
            stats_printed := stats_printed acc ++
              ["Error with " +:+ record +:+ ": " +:+ msg] |}
  | Raise (BaseException msg) => Raise (BaseException msg)
  end.

(** [AFDBDataLoader.get_stats] on the catalog [self.records]: the rows of
    the returned frame and what was printed.  A frame built from an empty
    list has no column, and selecting one raises [KeyError]. *)
Definition get_stats (records : list string)
  : result (list StatRow * list string) :=
  acc ← for_each stats_record records {| stats := []; stats_printed := [] |};
  match stats acc with
  | [] => Raise (Exception "'af_duration_h'")
  | _ =>
      let total_af := column_sum af_duration_h (stats acc) in
      let total_normal := column_sum normal_duration_h (stats acc) in
      Ok (stats acc,
          stats_printed acc ++
          ["
Total AF: " +:+ format_1f total_af +:+ "h";
           "Total Normal: " +:+ format_1f total_normal +:+ "h";
           "Overall AF%: "
             +:+ format_1f (total_af / (total_af + total_normal) * 100)%Q
             +:+ "%"])
  end.
End Stats.

(** The row [get_stats] appends for a record, if any. *)
Definition stats_row {F : Type}
    (rdrecord : string → option (list Z) → result (WfdbRecord F))
    (rdann : string → string → result Annotation)
    (data_path : string) (record : string) : option StatRow :=
  match load_record rdrecord rdann data_path record (Some [0]) with
  | Ok data =>
      match ld_rhythm_labels data with
      | Some labels =>
          let af_duration :=
            (inject_Z (count_label "atrial_fibrillation" labels)
             / ld_fs data)%Q in
          let normal_duration :=
            (inject_Z (count_label "normal" labels) / ld_fs data)%Q in
          let total := (af_duration + normal_duration)%Q in
          if Qpositive total
          then Some {| st_record := record;
                       af_duration_h := (af_duration / 3600)%Q;
                       normal_duration_h := (normal_duration / 3600)%Q;
                       af_percent := (af_duration / total * 100)%Q |}
          else None
      | None => None
      end
  | Raise _ => None
  end.

(** A formatting of rationals that shows the numerator only. *)
Definition format_numerator (x : Q) : string := pretty (Qnum x).

(** ** Further vocabulary *)

(** Whether iteration [i] of the labelling loop writes sample [j] of an
    array of length [L]: the bounds are those of the slice
    [labels[sample:next_sample]]. *)
Definition segment_covers (rc : list (Z * string)) (L : Z) (i j : nat)
  : bool :=
  match rc !! i with
  | Some (s, _) =>
      bool_decide (slice_bound s L ≤ Z.of_nat j
                   < slice_bound (segment_end rc i L) L)
  | None => false
  end.

(** Boundaries at 30 and 10, in this order, on a signal of length 40. *)
Definition overlapping_rhythms : Annotation :=
  {| sample := [30; 10]; aux_note := [Some "(AFIB"; Some "(N"] |}.

(** A record of 300 samples at 250 Hz with the annotations
    [three_rhythms]. *)
Definition rdrecord_300 (path : string) (channels : option (list Z))
  : result (WfdbRecord Z) :=
  Ok {| p_signal := replicate 300 0; fs := 250; sig_len := 300 |}.

Definition rdann_three_rhythms (path extension : string)
  : result Annotation :=
  Ok three_rhythms.

(** What one record adds to [all_windows] and [all_labels] in
    [process_records]: the arrays [create_windows] returns for it, or
    nothing when the record is skipped (its load raises, it has no rhythm
    labels, or windowing raises). *)
Definition record_contribution {F : Type}
    (rdrecord : string → option (list Z) → result (WfdbRecord F))
    (rdann : string → string → result Annotation)
    (data_path : string) (window_size stride : Z) (record : string)
  : option (list (list F) * list Z) :=
  match load_record rdrecord rdann data_path record (Some [0]) with
  | Ok data =>
      match ld_rhythm_labels data with
      | Some rhythm_labels =>
          match create_windows (squeeze (ld_signal data))
                  (binary_labels_of rhythm_labels) window_size stride with
          | Ok wl => Some wl
          | Raise _ => None
          end
      | None => None
      end
  | Raise _ => None
  end.


(** No load of a record of the list is interrupted by an exception
    outside the [Exception] hierarchy. *)
Definition no_interrupt {F : Type}
    (rdrecord : string → option (list Z) → result (WfdbRecord F))
    (rdann : string → string → result Annotation)
    (data_path : string) (records : list string) : Prop :=
  ∀ r msg, r ∈ records →
    load_record rdrecord rdann data_path r (Some [0])
    ≠ Raise (BaseException msg).

(** A directory with a header named [.hea] and a header named
    [.hea.hea]: both have the stem [.hea]. *)
Definition dir_dot_hea : Directory :=
  {| listdir := [".hea"; ".hea.hea"]; exists_ := λ _, true |}.

(** Headers and data files of three records; the data file of [04043] is
    missing. *)
Definition dir_three : Directory :=
  {| listdir := ["08455.hea"; "04015.hea"; "04015.dat"; "08455.dat";
                 "04043.hea"];
     exists_ := λ name, bool_decide (name ∈ ["04015.dat"; "08455.dat"]) |}.

(** A record of a single sample. *)
Definition rdrecord_one_sample (path : string) (channels : option (list Z))
  : result (WfdbRecord Z) :=
  Ok {| p_signal := [7]; fs := 250; sig_len := 1 |}.

(** * Properties *)

(** ** Slices *)

Lemma slice_bound_range i len : 0 ≤ len → 0 ≤ slice_bound i len ≤ len.
Proof. unfold slice_bound. case_bool_decide; lia. Qed.

Lemma slice_bound_nonneg i len :
  0 ≤ i → 0 ≤ len → slice_bound i len = Z.min i len.
Proof. intros. unfold slice_bound. case_bool_decide; lia. Qed.

Lemma length_np_setslice {A} (l : list A) start stop v :
  length (np_setslice l start stop v) = length l.
Proof. unfold np_setslice. apply length_imap. Qed.

Lemma lookup_np_setslice {A} (l : list A) start stop v j :
  np_setslice l start stop v !! j =
  (λ x, if bool_decide (slice_bound start (Z.of_nat (length l)) ≤ Z.of_nat j
                        < slice_bound stop (Z.of_nat (length l)))
        then v else x) <$> l !! j.
Proof. unfold np_setslice. by rewrite list_lookup_imap. Qed.

(** A slice assignment whose selection is empty changes nothing. *)
Lemma np_setslice_empty {A} (l : list A) start stop v :
  slice_bound stop (Z.of_nat (length l))
    ≤ slice_bound start (Z.of_nat (length l)) →
  np_setslice l start stop v = l.
Proof.
  intros Hle. apply list_eq. intros j. rewrite lookup_np_setslice.
  destruct (l !! j); simpl; [|done].
  case_bool_decide; [lia|done].
Qed.

Lemma np_setslice_degenerate {A} (l : list A) start stop v :
  Z.of_nat (length l) ≤ start ∨ 0 ≤ stop ≤ start →
  np_setslice l start stop v = l.
Proof.
  intros H. apply np_setslice_empty.
  pose proof (slice_bound_range stop (Z.of_nat (length l))).
  unfold slice_bound in *. repeat case_bool_decide; lia.
Qed.

(** ** The rhythm label expander *)

Lemma length_label_segment rc sig_len labels i :
  length (label_segment rc sig_len labels i) = length labels.
Proof.
  unfold label_segment. destruct (rc !! i) as [[s a]|]; [|done].
  apply length_np_setslice.
Qed.

Lemma length_label_loop rc sig_len idx labels :
  length (foldl (label_segment rc sig_len) labels idx) = length labels.
Proof.
  revert labels. induction idx as [|i idx IH]; intros labels; simpl; [done|].
  by rewrite IH, length_label_segment.
Qed.

(** The [next_sample] of iteration [i] is [segment_end]. *)
Lemma label_segment_eq rc sig_len labels i s a :
  rc !! i = Some (s, a) →
  label_segment rc sig_len labels i =
  np_setslice labels s (segment_end rc i sig_len) (rhythm_name a).
Proof.
  intros Hi. unfold label_segment, segment_end, rhythm_name. rewrite Hi.
  replace (i + 1)%nat with (S i) by lia.
  case_bool_decide as Hlt.
  - destruct (lookup_lt_is_Some_2 rc (S i) Hlt) as [[s' a'] Hs]. by rewrite Hs.
  - rewrite (lookup_ge_None_2 rc (S i)) by lia. done.
Qed.

Lemma rhythm_name_in_names a : rhythm_name a ∈ label_names.
Proof.
  unfold rhythm_name, rhythm_map, label_names.
  destruct (decide (a = "(AFIB")) as [->|?]; [set_solver|].
  rewrite lookup_insert_ne by done.
  destruct (decide (a = "(N")) as [->|?]; [set_solver|].
  rewrite lookup_insert_ne by done.
  destruct (decide (a = "(AFL")) as [->|?]; [set_solver|].
  rewrite lookup_insert_ne by done.
  rewrite lookup_empty. set_solver.
Qed.

Lemma label_segment_names rc sig_len labels i :
  Forall (λ x, x ∈ label_names) labels →
  Forall (λ x, x ∈ label_names) (label_segment rc sig_len labels i).
Proof.
  intros Hall. unfold label_segment.
  destruct (rc !! i) as [[s a]|]; [|done].
  apply Forall_lookup. intros j x. rewrite lookup_np_setslice.
  destruct (labels !! j) as [y|] eqn:Hy; simpl; [|done].
  intros [= <-]. case_bool_decide.
  - apply rhythm_name_in_names.
  - exact (Forall_lookup_1 _ labels j y Hall Hy).
Qed.

Lemma label_loop_names rc sig_len idx labels :
  Forall (λ x, x ∈ label_names) labels →
  Forall (λ x, x ∈ label_names) (foldl (label_segment rc sig_len) labels idx).
Proof.
  revert labels. induction idx as [|i idx IH]; intros labels H; simpl; [done|].
  by apply IH, label_segment_names.
Qed.

Lemma StronglySorted_lookup_le (l : list Z) i i' x y :
  StronglySorted Z.le l → (i ≤ i')%nat →
  l !! i = Some x → l !! i' = Some y → x ≤ y.
Proof.
  intros Hs. revert i i'.
  induction Hs as [|z l Hs IH Hall]; intros i i' Hle Hx Hy; [done|].
  destruct i as [|i], i' as [|i']; simpl in *; simplify_eq; try lia.
  - by eapply (Forall_lookup_1 _ l i' y Hall).
  - eapply IH; [|done..]. lia.
Qed.

(** Boundaries that all lie after sample [j] leave its label alone. *)
Lemma label_loop_untouched rc sig_len labels k n j :
  (∀ i s a, (k ≤ i)%nat → rc !! i = Some (s, a) → 0 ≤ s ∧ Z.of_nat j < s) →
  foldl (label_segment rc sig_len) labels (seq k n) !! j = labels !! j.
Proof.
  revert k labels. induction n as [|n IH]; intros k labels Hafter; [done|].
  simpl. rewrite IH by (intros i s a ?; apply Hafter; lia).
  destruct (rc !! k) as [[s a]|] eqn:Hk.
  - rewrite (label_segment_eq _ _ _ _ _ _ Hk), lookup_np_setslice.
    destruct (labels !! j) as [x|] eqn:Hj; simpl; [|done].
    apply lookup_lt_Some in Hj.
    destruct (Hafter k s a ltac:(lia) Hk) as [H0 Hlt].
    rewrite slice_bound_nonneg by lia.
    case_bool_decide; [lia|done].
  - unfold label_segment. by rewrite Hk.
Qed.

(** The samples of segment [i] carry the name of boundary [i] when the
    loop is over. *)
Lemma label_loop_segment rc sig_len labels k n i s a j :
  StronglySorted Z.le rc.*1 → Forall (λ s, 0 ≤ s) rc.*1 →
  length labels = Z.to_nat sig_len →
  (k + n = length rc)%nat → (k ≤ i)%nat →
  rc !! i = Some (s, a) →
  s ≤ Z.of_nat j < segment_end rc i sig_len → Z.of_nat j < sig_len →
  foldl (label_segment rc sig_len) labels (seq k n) !! j
  = Some (rhythm_name a).
Proof.
  intros Hsort Hpos. revert k labels.
  induction n as [|n IH]; intros k labels Hlen Hkn Hki Hi Hj HjL.
  { apply lookup_lt_Some in Hi. lia. }
  simpl. destruct (decide (k = i)) as [->|Hne].
  - rewrite label_loop_untouched.
    + rewrite (label_segment_eq _ _ _ _ _ _ Hi), lookup_np_setslice.
      destruct (lookup_lt_is_Some_2 labels j ltac:(lia)) as [x ->]. simpl.
      assert (0 ≤ s) as Hs0.
      { eapply (Forall_lookup_1 _ rc.*1 i s Hpos).
        by rewrite list_lookup_fmap, Hi. }
      assert (0 ≤ segment_end rc i sig_len) as He0 by lia.
      rewrite !slice_bound_nonneg by lia.
      by rewrite bool_decide_eq_true_2 by lia.
    + intros i' s' a' Hle Hi'.
      assert (0 ≤ s') as Hs0.
      { eapply (Forall_lookup_1 _ rc.*1 i' s' Hpos).
        by rewrite list_lookup_fmap, Hi'. }
      split; [done|].
      unfold segment_end in Hj.
      destruct (lookup_lt_is_Some_2 rc (S i)) as [[s1 a1] Hs1].
      { apply lookup_lt_Some in Hi'. lia. }
      rewrite Hs1 in Hj.
      assert (s1 ≤ s'); [|lia].
      eapply (StronglySorted_lookup_le rc.*1 (S i) i'); [done|lia|..].
      * by rewrite list_lookup_fmap, Hs1.
      * by rewrite list_lookup_fmap, Hi'.
  - apply IH; try done; try lia.
    by rewrite length_label_segment.
Qed.

Lemma rhythm_changes_fst_Forall (P : Z → Prop) samples notes :
  Forall P samples →
  Forall P (omap rhythm_change (zip samples notes)).*1.
Proof.
  intros H. revert notes.
  induction H as [|s samples Hs H IH]; intros [|aux notes]; simpl;
    try constructor.
  unfold rhythm_change at 1. simpl.
  destruct aux as [a|]; [|apply IH].
  destruct (truthy (Some a) && startswith a "("); simpl; [|apply IH].
  constructor; [done|apply IH].
Qed.

Lemma rhythm_changes_sorted samples notes :
  StronglySorted Z.le samples →
  StronglySorted Z.le (omap rhythm_change (zip samples notes)).*1.
Proof.
  intros H. revert notes.
  induction H as [|s samples H IH Hall]; intros [|aux notes]; simpl;
    try constructor.
  unfold rhythm_change at 1. simpl.
  destruct aux as [a|]; [|apply IH].
  destruct (truthy (Some a) && startswith a "("); simpl; [|apply IH].
  constructor; [apply IH|]. by apply rhythm_changes_fst_Forall.
Qed.

(** The comprehension keeps the boundary events, in order. *)
Lemma rhythm_changes_filter annotation :
  rhythm_changes annotation =
  (λ ev, (ev.1, default "" ev.2))
    <$> filter is_boundary (zip (sample annotation) (aux_note annotation)).
Proof.
  unfold rhythm_changes.
  induction (zip (sample annotation) (aux_note annotation))
    as [|[s aux] evs IH]; [done|].
  rewrite filter_cons.
  destruct (decide (is_boundary (s, aux))) as [(a & Ha & Hp)|Hn].
  - simpl in Ha. subst aux. rewrite fmap_cons, <- IH. cbn [omap list_omap].
    unfold rhythm_change at 1, startswith. cbn [fst snd truthy].
    rewrite Hp. by destruct a.
  - rewrite <- IH. cbn [omap list_omap].
    unfold rhythm_change at 1, startswith. cbn [fst snd].
    destruct aux as [a|]; [|done].
    destruct (String.prefix "(" a) eqn:Hp.
    + destruct Hn. by exists a.
    + by rewrite andb_false_r.
Qed.

Lemma rhythm_map_lookup aux name :
  rhythm_map !! aux = Some name ↔
  (aux = "(AFIB" ∧ name = "atrial_fibrillation")
  ∨ (aux = "(N" ∧ name = "normal")
  ∨ (aux = "(AFL" ∧ name = "atrial_flutter").
Proof.
  unfold rhythm_map.
  rewrite !lookup_insert_Some, lookup_empty.
  split.
  - intros [[<- <-]|[? [[<- <-]|[? [[<- <-]|[? ?]]]]]]; auto. done.
  - intros [[-> ->]|[[-> ->]|[-> ->]]];
      [left|right; split; [done|left]
      |right; split; [done|right; split; [done|left]]]; done.
Qed.

Lemma get_rhythm_labels_Ok annotation sig_len :
  0 ≤ sig_len →
  _get_rhythm_labels annotation sig_len =
  Ok (foldl (label_segment (rhythm_changes annotation) sig_len)
        (replicate (Z.to_nat sig_len) "unknown")
        (seq 0 (length (rhythm_changes annotation)))).
Proof.
  intros HL. unfold _get_rhythm_labels, np_full.
  by rewrite bool_decide_eq_false_2 by lia.
Qed.

(** C1: for an annotation whose sample indices are ordered and not
    negative, and a signal length [L], [_get_rhythm_labels] keeps exactly
    the events whose auxiliary string is present and begins with an
    opening parenthesis; every sample of [[s_i, s_(i+1))] (up to [L] for
    the last boundary) carries the table's name for boundary [i], or
    ["other"] for a marker outside the three-entry table; samples before
    the first boundary stay ["unknown"]; the array has length [L] and every
    entry is one of the five names; without boundaries all of it is
    ["unknown"]. *)
Theorem get_rhythm_labels_segments (annotation : Annotation) (L : Z) :
  0 ≤ L →
  Sorted Z.le (sample annotation) →
  Forall (λ s, 0 ≤ s) (sample annotation) →
  let rc := rhythm_changes annotation in
  ∃ labels,
    _get_rhythm_labels annotation L = Ok labels
    ∧ rc = (λ ev, (ev.1, default "" ev.2))
             <$> filter is_boundary
                   (zip (sample annotation) (aux_note annotation))
    ∧ (∀ aux name, rhythm_map !! aux = Some name ↔
         (aux = "(AFIB" ∧ name = "atrial_fibrillation")
         ∨ (aux = "(N" ∧ name = "normal")
         ∨ (aux = "(AFL" ∧ name = "atrial_flutter"))
    ∧ (∀ i s aux j,
         rc !! i = Some (s, aux) →
         s ≤ Z.of_nat j < segment_end rc i L → Z.of_nat j < L →
         labels !! j = Some (default "other" (rhythm_map !! aux)))
    ∧ (∀ j, Z.of_nat j < L →
         (∀ s aux, rc !! 0%nat = Some (s, aux) → Z.of_nat j < s) →
         labels !! j = Some "unknown")
    ∧ Z.of_nat (length labels) = L
    ∧ Forall (λ x, x ∈ label_names) labels
    ∧ (rc = [] → labels = replicate (Z.to_nat L) "unknown").
Proof.
  intros HL Hsorted Hpos rc.
  assert (StronglySorted Z.le rc.*1) as Hrc_sorted.
  { apply rhythm_changes_sorted, Sorted_StronglySorted; [apply _|done]. }
  assert (Forall (λ s, 0 ≤ s) rc.*1) as Hrc_pos.
  { by apply rhythm_changes_fst_Forall. }
  eexists. split; [by apply get_rhythm_labels_Ok|].
  fold rc. split; [apply rhythm_changes_filter|].
  split; [apply rhythm_map_lookup|].
  split; [|split; [|split; [|split]]].
  - intros i s aux j Hi Hj HjL.
    eapply (label_loop_segment rc L _ 0 (length rc) i s aux j); try done.
    + by rewrite length_replicate.
    + lia.
  - intros j HjL Hfirst.
    rewrite label_loop_untouched.
    + apply lookup_replicate_2. lia.
    + intros i s a _ Hi.
      assert (0 ≤ s) as Hs0.
      { eapply (Forall_lookup_1 _ rc.*1 i s Hrc_pos).
        by rewrite list_lookup_fmap, Hi. }
      split; [done|].
      destruct (lookup_lt_is_Some_2 rc 0) as [[s0 a0] H0].
      { apply lookup_lt_Some in Hi. lia. }
      specialize (Hfirst s0 a0 H0).
      assert (s0 ≤ s); [|lia].
      eapply (StronglySorted_lookup_le rc.*1 0 i); [done|lia|..].
      * by rewrite list_lookup_fmap, H0.
      * by rewrite list_lookup_fmap, Hi.
  - rewrite length_label_loop, length_replicate. lia.
  - apply label_loop_names, Forall_replicate. set_solver.
  - intros ->. done.
Qed.

(** C10: for every annotation, whatever the order and range of its sample
    indices, and every signal length [L ≥ 0], [_get_rhythm_labels] returns
    an array of length [L]; an iteration whose segment starts at or after
    the end of the signal, or whose end is not after its start, assigns an
    empty slice and leaves the array as it was. *)
Theorem get_rhythm_labels_total (annotation : Annotation) (L : Z) :
  0 ≤ L →
  ∃ labels,
    _get_rhythm_labels annotation L = Ok labels
    ∧ Z.of_nat (length labels) = L
    ∧ ∀ (arr : list string) i s aux,
        Z.of_nat (length arr) = L →
        rhythm_changes annotation !! i = Some (s, aux) →
        L ≤ s ∨ 0 ≤ segment_end (rhythm_changes annotation) i L ≤ s →
        label_segment (rhythm_changes annotation) L arr i = arr.
Proof.
  intros HL. eexists. split; [by apply get_rhythm_labels_Ok|]. split.
  - rewrite length_label_loop, length_replicate. lia.
  - intros arr i s aux Harr Hi Hdeg.
    rewrite (label_segment_eq _ _ _ _ _ _ Hi).
    apply np_setslice_degenerate. lia.
Qed.

(** ** Ranges and windows *)

Lemma range_up_lookup fuel start stop step k x :
  0 < step → (Z.to_nat (stop - start) ≤ fuel)%nat →
  range_up fuel start stop step !! k = Some x ↔
  x = start + Z.of_nat k * step ∧ x < stop.
Proof.
  intros Hstep. revert start k.
  induction fuel as [|fuel IH]; intros start k Hfuel; simpl.
  - split; [done|]. intros [-> ?]. nia.
  - case_bool_decide as Hlt.
    + destruct k as [|k]; simpl.
      * split; [intros [= <-]; lia|]. intros [-> ?]. f_equal. lia.
      * rewrite IH by lia. split; intros [-> ?]; split; lia.
    + split; [done|]. intros [-> ?]. nia.
Qed.

Lemma py_range_from_0 stop step :
  0 < step →
  py_range 0 stop step =
  Ok ((λ k, k * step)
        <$> seqZ 0 (if bool_decide (stop ≤ 0) then 0
                    else (stop - 1) `div` step + 1)).
Proof.
  intros Hstep. unfold py_range.
  rewrite bool_decide_eq_false_2, bool_decide_eq_true_2 by lia.
  f_equal. apply list_eq. intros k.
  destruct (range_up _ 0 stop step !! k) as [x|] eqn:Hk.
  - apply range_up_lookup in Hk as [-> Hlt]; [|lia..].
    symmetry. rewrite list_lookup_fmap.
    rewrite lookup_seqZ_lt; [simpl; f_equal; lia|].
    case_bool_decide; [nia|].
    assert (Z.of_nat k ≤ (stop - 1) `div` step); [|lia].
    apply Z.div_le_lower_bound; lia.
  - symmetry. rewrite list_lookup_fmap.
    destruct (seqZ _ _ !! k) as [y|] eqn:Hy; [|done]. exfalso.
    apply lookup_seqZ in Hy as [-> Hlt].
    assert (is_Some (range_up (Z.to_nat (stop - 0)) 0 stop step !! k))
      as [? ?]; [|congruence].
    exists (0 + Z.of_nat k * step). apply range_up_lookup; [lia..|].
    split; [done|].
    case_bool_decide; [lia|].
    assert (Z.of_nat k ≤ (stop - 1) `div` step) as Hle by lia.
    pose proof (Z.mul_div_le (stop - 1) step Hstep). nia.
Qed.

Lemma window_starts_eq L W S :
  0 < W → 0 < S →
  py_range 0 (L - W + 1) S =
  Ok ((λ k, k * S) <$> seqZ 0 (window_count L W S)).
Proof.
  intros HW HS. rewrite py_range_from_0 by done. unfold window_count.
  repeat case_bool_decide; try lia; try done.
  by replace (L - W + 1 - 1) with (L - W) by lia.
Qed.

Lemma window_count_nonneg L W S : 0 < S → 0 ≤ window_count L W S.
Proof.
  intros. unfold window_count. case_bool_decide; [done|].
  assert (0 ≤ (L - W) `div` S); [|lia]. apply Z.div_pos; lia.
Qed.

(** A window start [k * S] below the count leaves room for [W] samples,
    and the first start past the count does not. *)
Lemma window_count_fits L W S k :
  0 < S → 0 ≤ k →
  k < window_count L W S ↔ k * S + W ≤ L.
Proof.
  intros HS Hk. unfold window_count. case_bool_decide.
  - split; [lia|nia].
  - pose proof (Z.mul_div_le (L - W) S HS).
    pose proof (Z.mul_succ_div_gt (L - W) S HS).
    split; intros; nia.
Qed.

Lemma py_slice_inside {A} (l : list A) start len :
  0 ≤ start → 0 ≤ len → start + len ≤ Z.of_nat (length l) →
  py_slice l start (start + len)
  = take (Z.to_nat len) (drop (Z.to_nat start) l)
  ∧ Z.of_nat (length (py_slice l start (start + len))) = len.
Proof.
  intros. unfold py_slice.
  rewrite !slice_bound_nonneg by lia.
  replace (Z.min (start + len) (Z.of_nat (length l))
           - Z.min start (Z.of_nat (length l))) with len by lia.
  replace (Z.min start (Z.of_nat (length l))) with start by lia.
  split; [done|]. rewrite length_take, length_drop. lia.
Qed.

Lemma for_each_window_step {F} (signal : list F) labels W starts ws ls :
  for_each (window_step (Vector signal) labels W) starts (ws, ls) =
  Ok (ws ++ ((λ st, py_slice signal st (st + W)) <$> starts),
      ls ++ (window_label labels W <$> starts)).
Proof.
  revert ws ls. induction starts as [|st starts IH]; intros ws ls; simpl.
  - by rewrite !app_nil_r.
  - rewrite IH. by rewrite <- !app_assoc.
Qed.

Lemma np_array_rows_uniform {F} (rows : list (list F)) n :
  Forall (λ r, length r = n) rows → np_array_rows rows = Ok rows.
Proof.
  intros Hall. unfold np_array_rows. destruct rows as [|r rows]; [done|].
  assert (forallb (λ r', bool_decide (length r' = length r)) (r :: rows)
          = true) as ->; [|done].
  apply forallb_forall. intros r' Hin.
  apply bool_decide_eq_true.
  rewrite Forall_forall in Hall.
  rewrite (Hall r'), (Hall r);
    [done|apply list_elem_of_here|exact (proj2 (list_elem_of_In _ _) Hin)].
Qed.

(** What [create_windows] returns on a 1-D signal. *)
Lemma create_windows_Ok {F} (signal : list F) labels W S :
  0 < W → 0 < S →
  let starts :=
    (λ k, k * S) <$> seqZ 0 (window_count (Z.of_nat (length signal)) W S) in
  create_windows (Vector signal) labels W S =
  Ok ((λ st, py_slice signal st (st + W)) <$> starts,
      window_label labels W <$> starts).
Proof.
  intros HW HS starts. unfold create_windows. simpl.
  rewrite window_starts_eq by done. simpl. fold starts.
  rewrite for_each_window_step. simpl.
  rewrite (np_array_rows_uniform _ (Z.to_nat W)); [done|].
  apply Forall_fmap, Forall_fmap, Forall_forall.
  intros k [Hk0 Hk]%elem_of_seqZ. simpl.
  apply window_count_fits in Hk; [|lia..].
  destruct (py_slice_inside signal (k * S) W) as [_ Hlen]; lia.
Qed.

Lemma ge_half_mean (seg : list Z) :
  seg ≠ [] →
  ge_half (np_mean seg) = true ↔
  (1 # 2 <= inject_Z (np_sum seg) / inject_Z (Z.of_nat (length seg)))%Q.
Proof.
  intros Hne. destruct seg as [|b seg]; [done|].
  unfold np_mean, ge_half. apply Qle_bool_iff.
Qed.

Lemma half_le_ratio (a n : Z) :
  0 < n → (1 # 2 <= inject_Z a / inject_Z n)%Q ↔ n ≤ 2 * a.
Proof.
  intros Hn. destruct n as [|p|p]; try lia.
  unfold Qle, Qdiv, Qinv, Qmult, inject_Z. simpl. lia.
Qed.

Lemma np_sum_binary (seg : list Z) :
  Forall (λ b, b = 0 ∨ b = 1) seg →
  np_sum seg = Z.of_nat (length (filter (λ b, b = 1) seg)).
Proof.
  induction 1 as [|b seg [-> | ->] _ IH]; [done|..]; rewrite filter_cons.
  - rewrite decide_False by done.
    unfold np_sum in *. simpl. rewrite IH. lia.
  - rewrite decide_True by done.
    unfold np_sum in *. simpl foldr. rewrite IH, length_cons. lia.
Qed.

(** C2: for a signal of length [L], a window size [W > 0] and a stride
    [S > 0], [create_windows] returns without error; the windows start at
    [0, S, 2S, ...] as long as [start + W ≤ L] and no such start is left
    out; each window holds the [W] consecutive samples from its start; for
    [W ≤ L] there are [floor((L - W) / S) + 1] of them, and for [L < W]
    there is none. *)
Theorem create_windows_count {F : Type} (signal : list F) (labels : list Z)
    (W S : Z) :
  0 < W → 0 < S →
  let L := Z.of_nat (length signal) in
  ∃ windows window_labels,
    create_windows (Vector signal) labels W S = Ok (windows, window_labels)
    ∧ (W ≤ L → Z.of_nat (length windows) = (L - W) `div` S + 1)
    ∧ (L < W → windows = [] ∧ window_labels = [])
    ∧ length window_labels = length windows
    ∧ (∀ k w, windows !! k = Some w →
         Z.of_nat k * S + W ≤ L
         ∧ w = take (Z.to_nat W) (drop (Z.to_nat (Z.of_nat k * S)) signal)
         ∧ Z.of_nat (length w) = W)
    ∧ (∀ k, Z.of_nat k * S + W ≤ L → (k < length windows)%nat).
Proof.
  intros HW HS L.
  pose proof (window_count_nonneg L W S HS) as Hn.
  eexists _, _. split; [by apply create_windows_Ok|]. fold L.
  split; [|split; [|split; [|split]]].
  - intros HWL. rewrite !length_fmap, length_seqZ.
    unfold window_count in *. rewrite bool_decide_eq_false_2 in * by lia. lia.
  - intros HLW. unfold window_count.
    by rewrite bool_decide_eq_true_2 by lia.
  - by rewrite !length_fmap.
  - intros k w. rewrite !list_lookup_fmap.
    destruct (seqZ 0 (window_count L W S) !! k) as [k'|] eqn:Hk; [|done].
    apply lookup_seqZ in Hk as [-> Hk]. simpl. intros [= <-].
    apply window_count_fits in Hk; [|lia..].
    replace (0 + Z.of_nat k) with (Z.of_nat k) in * by lia.
    split; [done|]. apply py_slice_inside; lia.
  - intros k Hk. rewrite !length_fmap, length_seqZ.
    apply window_count_fits in Hk; lia.
Qed.

(** C3: over a 0/1 label array as long as the signal, the label of the
    window starting at [start = k * S] is 1 when the mean of the [W]
    labels in [[start, start + W)] is at least one half, and 0 otherwise;
    that is the case exactly when at least half of these labels are 1. *)
Theorem create_windows_majority {F : Type} (signal : list F)
    (labels : list Z) (W S : Z) :
  0 < W → 0 < S →
  length labels = length signal →
  Forall (λ b, b = 0 ∨ b = 1) labels →
  ∃ windows window_labels,
    create_windows (Vector signal) labels W S = Ok (windows, window_labels)
    ∧ length window_labels = length windows
    ∧ ∀ k y, window_labels !! k = Some y →
        let start := Z.of_nat k * S in
        let seg := take (Z.to_nat W) (drop (Z.to_nat start) labels) in
        let mean := (inject_Z (np_sum seg) / inject_Z W)%Q in
        Z.of_nat (length seg) = W
        ∧ ((y = 1 ∧ (1 # 2 <= mean)%Q) ∨ (y = 0 ∧ ¬ (1 # 2 <= mean)%Q))
        ∧ (y = 1 ↔ W ≤ 2 * Z.of_nat (length (filter (λ b, b = 1) seg))).
Proof.
  intros HW HS Hlen Hbin.
  eexists _, _. split; [by apply create_windows_Ok|].
  split; [by rewrite !length_fmap|].
  intros k y. rewrite !list_lookup_fmap.
  destruct (seqZ 0 _ !! k) as [k'|] eqn:Hk; [|done].
  apply lookup_seqZ in Hk as [-> Hk]. simpl. intros [= <-].
  apply window_count_fits in Hk; [|lia..].
  replace (0 + Z.of_nat k) with (Z.of_nat k) in * by lia.
  destruct (py_slice_inside labels (Z.of_nat k * S) W) as [Hseg HsegW];
    [lia..|].
  unfold window_label. rewrite Hseg in *.
  set (seg := take (Z.to_nat W) (drop (Z.to_nat (Z.of_nat k * S)) labels))
    in *.
  assert (seg ≠ []) as Hne by (intros Heq; rewrite Heq in HsegW; simpl in *; lia).
  assert (Forall (λ b, b = 0 ∨ b = 1) seg) as Hbin'.
  { unfold seg. by apply Forall_take, Forall_drop. }
  pose proof (ge_half_mean seg Hne) as Hmean. rewrite HsegW in Hmean.
  pose proof (half_le_ratio (np_sum seg) W HW) as Hratio.
  rewrite (np_sum_binary seg Hbin') in Hratio at 2.
  split; [done|].
  destruct (ge_half (np_mean seg)) eqn:Hge.
  - split; [left; split; [done|by apply Hmean]|].
    split; [intros _|done]. apply Hratio, Hmean. done.
  - assert (¬ (1 # 2 <= inject_Z (np_sum seg) / inject_Z W)%Q) as Hnot.
    { intros Hq. apply Hmean in Hq. congruence. }
    split; [right; split; [done|done]|].
    split; [done|]. intros Hw. destruct Hnot. by apply Hratio.
Qed.

(** ** Loading a record *)

(** C5: when the signal of a record is read and its annotation stream
    cannot be, [load_record] does not raise: it returns the signal, the
    sampling frequency and the signal length of the record, with
    [rhythm_labels] set to [None]. *)
Theorem load_record_without_annotation {F : Type}
    (rdrecord : string → option (list Z) → result (WfdbRecord F))
    (rdann : string → string → result Annotation)
    (data_path record_name : string) (channels : option (list Z))
    (record : WfdbRecord F) (e : exn) :
  rdrecord (record_path data_path record_name)
    (match channels with Some (_ :: _) => channels | _ => None end)
    = Ok record →
  ¬ (fs record == 0)%Q →
  rdann (record_path data_path record_name) "atr" = Raise e →
  ∃ data,
    load_record rdrecord rdann data_path record_name channels = Ok data
    ∧ ld_record_name data = record_name
    ∧ ld_signal data = p_signal record
    ∧ ld_fs data = fs record
    ∧ ld_sig_len data = sig_len record
    ∧ ld_rhythm_labels data = None.
Proof.
  intros Hrec Hfs Hann. unfold load_record.
  assert (match channels with
          | Some (_ :: _) =>
              rdrecord (record_path data_path record_name) channels
          | _ => rdrecord (record_path data_path record_name) None
          end = Ok record) as ->.
  { by destruct channels as [[|c cs]|]. }
  simpl. rewrite Hann. simpl. unfold py_truediv.
  destruct (Qeq_bool (fs record) 0) eqn:Hz.
  - destruct Hfs. by apply Qeq_bool_iff.
  - simpl. eexists. split; [done|]. done.
Qed.

(** ** Building the datasets *)

Lemma process_record_raise {F : Type}
    (rdrecord : string → option (list Z) → result (WfdbRecord F))
    (rdann : string → string → result Annotation)
    (data_path : string) (window_size stride : Z)
    (acc : Accum F) (record msg : string) :
  load_record rdrecord rdann data_path record (Some [0])
    = Raise (Exception msg) →
  process_record rdrecord rdann data_path window_size stride acc record =
  Ok {| all_windows := all_windows acc;
        all_labels := all_labels acc;
        printed := printed acc
                   ++ ["Error with " +:+ record +:+ ": " +:+ msg] |}.
Proof. intros Hload. unfold process_record, try_record. by rewrite Hload. Qed.

Lemma process_record_no_labels {F : Type}
    (rdrecord : string → option (list Z) → result (WfdbRecord F))
    (rdann : string → string → result Annotation)
    (data_path : string) (window_size stride : Z)
    (acc : Accum F) (record : string) (data : LoadedRecord F) :
  load_record rdrecord rdann data_path record (Some [0]) = Ok data →
  ld_rhythm_labels data = None →
  process_record rdrecord rdann data_path window_size stride acc record
  = Ok acc.
Proof.
  intros Hload Hnone. unfold process_record, try_record.
  rewrite Hload. simpl. by rewrite Hnone.
Qed.

(** C4 (as the code has it): a record whose load raises an [Exception] is
    skipped with the message [Error with <record>: <exception>], a record
    whose rhythm labels are [None] is skipped without any message; in both
    cases the accumulated windows and labels are unchanged and the loop
    goes on with the remaining records. *)
Theorem process_records_skips {F : Type}
    (rdrecord : string → option (list Z) → result (WfdbRecord F))
    (rdann : string → string → result Annotation)
    (data_path : string) (window_size stride : Z)
    (acc : Accum F) (record : string) (rest : list string) :
  let step := process_record rdrecord rdann data_path window_size stride in
  let load := load_record rdrecord rdann data_path record (Some [0]) in
  (∀ msg, load = Raise (Exception msg) →
     for_each step (record :: rest) acc =
     for_each step rest
       {| all_windows := all_windows acc;
          all_labels := all_labels acc;
          printed := printed acc
                     ++ ["Error with " +:+ record +:+ ": " +:+ msg] |})
  ∧ (∀ data, load = Ok data → ld_rhythm_labels data = None →
     for_each step (record :: rest) acc = for_each step rest acc).
Proof.
  intros step load. subst step load. split.
  - intros msg Hload. cbn [for_each].
    by rewrite (process_record_raise _ _ _ _ _ _ _ _ Hload).
  - intros data Hload Hnone. cbn [for_each].
    by rewrite (process_record_no_labels _ _ _ _ _ _ _ _ Hload Hnone).
Qed.

(** C4 fails as stated: a record whose annotation file is missing has no
    rhythm labels and is skipped, and nothing is printed about it. *)
Lemma process_records_silent_skip :
  (∃ data,
     load_record rdrecord_three_samples rdann_missing "data" "04015"
       (Some [0]) = Ok data
     ∧ ld_rhythm_labels data = None)
  ∧ process_records rdrecord_three_samples rdann_missing "data" 1000 500
      ["04015"] [] = Ok ([], [], [])
  ∧ ¬ ∃ line out,
        process_records rdrecord_three_samples rdann_missing "data" 1000 500
          ["04015"] [] = Ok ([], [], out)
        ∧ line ∈ out.
Proof.
  split; [eexists; split; reflexivity|].
  split; [reflexivity|].
  intros (line & out & Hrun & Hin).
  assert (out = []) as -> by (vm_compute in Hrun; congruence).
  by apply not_elem_of_nil in Hin.
Qed.

Lemma get_records_Permutation (d1 d2 : Directory) :
  listdir d1 ≡ₚ listdir d2 → _get_records d1 = _get_records d2.
Proof.
  intros Hperm. unfold _get_records, glob_hea.
  apply (Sorted_unique String.le).
  - apply Sorted_merge_sort. apply _.
  - apply Sorted_merge_sort. apply _.
  - rewrite !merge_sort_Permutation. by rewrite Hperm.
Qed.

(** C6: the record-level split of [build_datasets] is a function of the
    set of directory entries, of which [.dat] files exist and of the test
    fraction (the seed is the literal 42): two runs that see the same
    entries, in whatever order the directory is enumerated, obtain the
    same train and test record lists. *)
Theorem split_records_deterministic
    (train_test_split :
       list string → Q → Z → result (list string * list string))
    (d1 d2 : Directory) (test_size : Q) :
  listdir d1 ≡ₚ listdir d2 →
  (∀ path, exists_ d1 path = exists_ d2 path) →
  split_records train_test_split d1 test_size
  = split_records train_test_split d2 test_size.
Proof.
  intros Hperm Hex. unfold split_records, usable_records.
  rewrite (get_records_Permutation d1 d2 Hperm).
  f_equal. apply list_filter_iff. intros r. by rewrite Hex.
Qed.

(** ** Strings and the record catalog *)

Lemma append_cons a s t : String a s +:+ t = String a (s +:+ t).
Proof. reflexivity. Qed.

Lemma length_append s t :
  String.length (s +:+ t) = (String.length s + String.length t)%nat.
Proof.
  induction s as [|a s IH]; [done|].
  rewrite append_cons. simpl. by rewrite IH.
Qed.

Lemma substring_all p : String.substring 0 (String.length p) p = p.
Proof. induction p as [|a p IH]; simpl; [done|]. by rewrite IH. Qed.

Lemma substring_append_r r p :
  String.substring (String.length r) (String.length p) (r +:+ p) = p.
Proof.
  induction r as [|a r IH]; [apply substring_all|].
  rewrite append_cons. simpl. apply IH.
Qed.

Lemma substring_append_l r p :
  String.substring 0 (String.length r) (r +:+ p) = r.
Proof.
  induction r as [|a r IH]; [by destruct p|].
  rewrite append_cons. simpl. by rewrite IH.
Qed.

Lemma substring_split s k :
  (k ≤ String.length s)%nat →
  s = String.substring 0 k s
      +:+ String.substring k (String.length s - k) s.
Proof.
  revert k. induction s as [|a s IH]; intros k Hk.
  - simpl in Hk. by replace k with 0%nat by lia.
  - destruct k as [|k].
    + simpl. by rewrite substring_all.
    + simpl. rewrite append_cons. f_equal. apply IH. simpl in Hk. lia.
Qed.

Lemma endswith_spec s p : endswith s p = true ↔ ∃ r, s = r +:+ p.
Proof.
  unfold endswith. rewrite andb_true_iff, Nat.leb_le, String.eqb_eq. split.
  - intros [Hle Hsub].
    exists (String.substring 0 (String.length s - String.length p) s).
    pose proof (substring_split s (String.length s - String.length p))
      as Hsplit.
    replace (String.length s - (String.length s - String.length p))%nat
      with (String.length p) in Hsplit by lia.
    rewrite Hsub in Hsplit. apply Hsplit. lia.
  - intros [r ->]. rewrite length_append. split; [lia|].
    replace (String.length r + String.length p - String.length p)%nat
      with (String.length r) by lia.
    apply substring_append_r.
Qed.

Lemma endswith_false s p : endswith s p = false ↔ ¬ ∃ r, s = r +:+ p.
Proof. rewrite <- endswith_spec. by destruct (endswith s p). Qed.

Lemma rfind_hea r : rfind "."%char (r +:+ ".hea") = Some (String.length r).
Proof.
  induction r as [|a r IH]; [done|].
  rewrite append_cons. simpl. by rewrite IH.
Qed.

(** The stem of a header file name is the name without [.hea], except for
    the file named [.hea] itself, whose stem is the whole name. *)
Lemma stem_hea r : r ≠ "" → stem (r +:+ ".hea") = r.
Proof.
  intros Hne. unfold stem. rewrite rfind_hea, length_append.
  assert (0 < String.length r)%nat as Hpos.
  { destruct r; [done|]. simpl. lia. }
  replace (0 <? String.length r)%nat with true
    by (symmetry; apply Nat.ltb_lt; lia).
  replace (String.length r <? String.length r + String.length ".hea" - 1)%nat
    with true by (symmetry; apply Nat.ltb_lt; simpl; lia).
  apply substring_append_l.
Qed.

Lemma stem_dot_hea : stem ".hea" = ".hea".
Proof. reflexivity. Qed.

(** C9: for every directory, [_get_records] returns, without error, the
    sorted list of the stems of the entries matching [*.hea], one per
    entry, leaving out the stems that end in ["-"]: an identifier [r] is
    listed exactly when [r.hea] is an entry of the directory and [r] does
    not end in ["-"] (the entry named [.hea] alone has the stem [.hea]);
    an empty directory gives the empty catalog. *)
Theorem get_records_catalog (d : Directory) :
  let records := _get_records d in
  Sorted String.le records
  ∧ records ≡ₚ filter (λ r, endswith r "-" = false)
                 (stem <$> filter (λ name, endswith name ".hea" = true)
                             (listdir d))
  ∧ (∀ s p, endswith s p = true ↔ ∃ r0, s = r0 +:+ p)
  ∧ (∀ r, r ∈ records ↔
       (¬ ∃ r0, r = r0 +:+ "-")
       ∧ ((r ≠ "" ∧ r +:+ ".hea" ∈ listdir d)
          ∨ (r = ".hea" ∧ ".hea" ∈ listdir d)))
  ∧ (listdir d = [] → records = []).
Proof.
  intros records.
  assert (records ≡ₚ filter (λ r, endswith r "-" = false)
            (stem <$> filter (λ name, endswith name ".hea" = true)
                        (listdir d))) as Hperm.
  { apply merge_sort_Permutation. }
  split; [apply Sorted_merge_sort; apply _|].
  split; [done|]. split; [apply endswith_spec|]. split.
  - intros r. rewrite Hperm, list_elem_of_filter, list_elem_of_fmap.
    rewrite endswith_false.
    apply and_iff_compat_l. split.
    + intros (name & -> & Hin). apply list_elem_of_filter in Hin as [Hhea Hin].
      apply endswith_spec in Hhea as [r0 ->].
      destruct (decide (r0 = "")) as [->|Hne].
      * right. split; [reflexivity|exact Hin].
      * left. by rewrite stem_hea.
    + intros [[Hne Hin]|[-> Hin]].
      * exists (r +:+ ".hea"). split; [by rewrite stem_hea|].
        apply list_elem_of_filter. split; [|done].
        apply endswith_spec. by exists r.
      * exists ".hea". split; [done|].
        apply list_elem_of_filter. split; [done|done].
  - intros Hnil. unfold records, _get_records, glob_hea.
    by rewrite Hnil.
Qed.

(** ** Shapes through the model *)

Lemma broadcast_rev_same a : broadcast_rev a a = Ok a.
Proof.
  induction a as [|x a IH]; [done|]. simpl.
  rewrite bool_decide_eq_true_2 by (by left). by rewrite IH.
Qed.

Lemma tensor_add_same x : tensor_add x x = Ok x.
Proof.
  unfold tensor_add. rewrite broadcast_rev_same. simpl.
  by rewrite reverse_involutive.
Qed.

Lemma KanResWideX_init_Ok input_channels output_size :
  0 ≤ input_channels → 0 ≤ output_size →
  KanResWideX_init input_channels output_size =
  Ok {| init_block :=
          {| init_conv1 := {| conv_in_channels := input_channels;
                              conv_out_channels := 64;
                              conv_kernel_size := 8; conv_stride := 1;
                              conv_padding := NoPadding |};
             init_bn1 := {| num_features := 64 |};
             init_conv2 := {| conv_in_channels := 64;
                              conv_out_channels := 32;
                              conv_kernel_size := 3; conv_stride := 1;
                              conv_padding := NoPadding |};
             init_bn2 := {| num_features := 32 |} |};
        pool := {| pool_kernel_size := 2 |};
        res_modules := replicate 8 res_block;
        global_pool := {| pool_output_size := 1 |};
        fc := {| in_features := 32; out_features := output_size |} |}.
Proof.
  intros Hic Hout.
  unfold KanResWideX_init, KanResInit_init, Linear_init, Conv1d_init.
  rewrite (bool_decide_eq_false_2 (input_channels < 0 ∨ _)) by lia.
  rewrite (bool_decide_eq_false_2 (32 < 0 ∨ output_size < 0)) by lia.
  reflexivity.
Qed.

(** Whatever the constructor arguments, the residual stack of a
    constructed model is eight copies of [res_block]. *)
Lemma KanResWideX_init_modules input_channels output_size m :
  KanResWideX_init input_channels output_size = Ok m →
  res_modules m = replicate 8 res_block.
Proof.
  unfold KanResWideX_init. intros H.
  destruct (KanResInit_init input_channels 64 32 8 3 1) as [ib|]; [|done].
  change (modules_of 8 (KanResModule_init 32 64 32 50 50 1))
    with (Ok (replicate 8 res_block)) in H.
  destruct (Linear_init 32 output_size) as [l|]; [|done].
  simpl in H. by injection H as <-.
Qed.

Lemma Conv1d_forward_same c n ch len :
  conv_padding c = Same → ch = conv_in_channels c →
  Conv1d_forward c [n; ch; len] = Ok [n; conv_out_channels c; len].
Proof.
  intros Hpad ->. unfold Conv1d_forward, conv_out_len.
  by rewrite bool_decide_eq_true_2, Hpad by done.
Qed.

Lemma Conv1d_forward_unpadded c n ch len :
  conv_padding c = NoPadding → ch = conv_in_channels c →
  conv_kernel_size c ≤ len →
  Conv1d_forward c [n; ch; len] =
  Ok [n; conv_out_channels c;
      (len - conv_kernel_size c) `div` conv_stride c + 1].
Proof.
  intros Hpad -> Hk. unfold Conv1d_forward, conv_out_len.
  rewrite bool_decide_eq_true_2, Hpad by done.
  by rewrite bool_decide_eq_false_2 by lia.
Qed.

Lemma BatchNorm1d_forward_batched training bn n ch len :
  ch = num_features bn → training = false ∨ n * len ≠ 1 →
  BatchNorm1d_forward training bn [n; ch; len] = Ok [n; ch; len].
Proof.
  intros -> Hmode. unfold BatchNorm1d_forward.
  rewrite bool_decide_eq_true_2 by done. simpl.
  destruct Hmode as [->|?]; [done|].
  by rewrite bool_decide_eq_false_2, andb_false_r by done.
Qed.

Lemma res_block_forward training n len :
  training = false ∨ n * len ≠ 1 →
  KanResModule_forward training res_block [n; 32; len] = Ok [n; 32; len].
Proof.
  intros Hmode. unfold KanResModule_forward, ReLU_forward.
  rewrite Conv1d_forward_same by done. cbn [mbind result_bind].
  rewrite BatchNorm1d_forward_batched by done. cbn [mbind result_bind].
  rewrite Conv1d_forward_same by done. cbn [mbind result_bind].
  rewrite BatchNorm1d_forward_batched by done. cbn [mbind result_bind].
  by rewrite tensor_add_same.
Qed.

Lemma res_stack_forward training k n len :
  training = false ∨ n * len ≠ 1 →
  for_each (λ x res_module, KanResModule_forward training res_module x)
    (replicate k res_block) [n; 32; len] = Ok [n; 32; len].
Proof.
  intros Hmode. induction k as [|k IH]; [done|].
  cbn [replicate for_each]. rewrite res_block_forward by done. exact IH.
Qed.


(** C7: every residual block of a constructed model returns a tensor of
    the shape it was given, sequence length and channel count included,
    so that [out + identity] adds tensors of one shape; the stack has
    eight blocks and preserves the shape as a whole.  In training mode
    batch normalisation needs more than one value per channel. *)
Theorem residual_blocks_preserve_shape (input_channels output_size : Z)
    (m : KanResWideX) (training : bool) (n len : Z) :
  KanResWideX_init input_channels output_size = Ok m →
  0 < n → 0 < len →
  training = false ∨ n * len ≠ 1 →
  length (res_modules m) = 8%nat
  ∧ (∀ blk, blk ∈ res_modules m →
       KanResModule_forward training blk [n; 32; len] = Ok [n; 32; len]
       ∧ conv_in_channels (res_conv1 blk) = conv_out_channels (res_conv2 blk))
  ∧ for_each (λ x res_module, KanResModule_forward training res_module x)
      (res_modules m) [n; 32; len] = Ok [n; 32; len].
Proof.
  intros Hinit Hn Hlen Hmode.
  rewrite (KanResWideX_init_modules _ _ _ Hinit).
  split; [done|]. split.
  - intros blk [-> _]%elem_of_replicate.
    split; [by apply res_block_forward|done].
  - by apply res_stack_forward.
Qed.


(** ** The statements at concrete inputs *)

Lemma get_rhythm_labels_segments_witness :
  0 ≤ 300
  ∧ Sorted Z.le (sample three_rhythms)
  ∧ Forall (λ s, 0 ≤ s) (sample three_rhythms)
  ∧ ∃ labels,
      _get_rhythm_labels three_rhythms 300 = Ok labels
      ∧ labels !! 99%nat = Some "normal"
      ∧ labels !! 100%nat = Some "atrial_fibrillation"
      ∧ labels !! 299%nat = Some "normal"
      ∧ Z.of_nat (length labels) = 300.
Proof.
  assert (0 ≤ 300) as HL by lia.
  assert (Sorted Z.le (sample three_rhythms)) as Hsorted.
  { repeat constructor; simpl; lia. }
  assert (Forall (λ s, 0 ≤ s) (sample three_rhythms)) as Hpos.
  { repeat constructor; simpl; lia. }
  do 3 (split; [assumption|]).
  destruct (get_rhythm_labels_segments three_rhythms 300 HL Hsorted Hpos)
    as (labels & Hok & _ & _ & Hseg & _ & Hlen & _).
  exists labels. split; [exact Hok|].
  split; [|split; [|split]].
  - apply (Hseg 0%nat 0 "(N" 99%nat);
      [reflexivity|vm_compute; split; [discriminate|reflexivity]|lia].
  - apply (Hseg 1%nat 100 "(AFIB" 100%nat);
      [reflexivity|vm_compute; split; [discriminate|reflexivity]|lia].
  - apply (Hseg 2%nat 250 "(N" 299%nat);
      [reflexivity|vm_compute; split; [discriminate|reflexivity]|lia].
  - exact Hlen.
Defined.

Lemma get_rhythm_labels_total_witness :
  0 ≤ 10
  ∧ ∃ labels,
      _get_rhythm_labels reversed_rhythms 10 = Ok labels
      ∧ Z.of_nat (length labels) = 10
      ∧ label_segment (rhythm_changes reversed_rhythms) 10
          (replicate 10 "unknown") 0 = replicate 10 "unknown".
Proof.
  assert (0 ≤ 10) as HL by lia.
  split; [assumption|].
  destruct (get_rhythm_labels_total reversed_rhythms 10 HL)
    as (labels & Hok & Hlen & Hdeg).
  exists labels. split; [exact Hok|]. split; [exact Hlen|].
  apply (Hdeg (replicate 10 "unknown") 0%nat 20 "(N");
    [reflexivity|reflexivity|left; lia].
Defined.

Lemma create_windows_count_witness :
  0 < 10 ∧ 0 < 5
  ∧ ∃ windows window_labels,
      create_windows (Vector ramp) half_af 10 5 = Ok (windows, window_labels)
      ∧ Z.of_nat (length windows) = 3
      ∧ length window_labels = length windows.
Proof.
  assert (0 < 10) as HW by lia.
  assert (0 < 5) as HS by lia.
  do 2 (split; [assumption|]).
  destruct (create_windows_count ramp half_af 10 5 HW HS)
    as (windows & window_labels & Hok & Hcount & _ & Hlen & _).
  exists windows, window_labels. split; [exact Hok|].
  split; [|exact Hlen]. apply Hcount. vm_compute. discriminate.
Defined.

Lemma create_windows_majority_witness :
  0 < 10 ∧ 0 < 5
  ∧ length half_af = length ramp
  ∧ Forall (λ b, b = 0 ∨ b = 1) half_af
  ∧ ∃ windows window_labels,
      create_windows (Vector ramp) half_af 10 5 = Ok (windows, window_labels)
      ∧ length window_labels = length windows
      ∧ ∀ y, window_labels !! 1%nat = Some y → y = 1.
Proof.
  assert (0 < 10) as HW by lia.
  assert (0 < 5) as HS by lia.
  assert (length half_af = length ramp) as Hlen by reflexivity.
  assert (Forall (λ b, b = 0 ∨ b = 1) half_af) as Hbin.
  { unfold half_af. repeat (apply List.Forall_cons; [auto|]).
    apply List.Forall_nil. }
  do 4 (split; [assumption|]).
  destruct (create_windows_majority ramp half_af 10 5 HW HS Hlen Hbin)
    as (windows & window_labels & Hok & Hlens & Hvote).
  exists windows, window_labels. split; [exact Hok|].
  split; [exact Hlens|].
  intros y Hy. destruct (Hvote 1%nat y Hy) as (_ & _ & Hiff).
  apply Hiff. vm_compute. discriminate.
Defined.

Lemma load_record_without_annotation_witness :
  rdrecord_three_samples (record_path "data" "04015") (Some [0])
    = Ok {| p_signal := [0; 0; 0]; fs := 250; sig_len := 3 |}
  ∧ ¬ (250 == 0)%Q
  ∧ rdann_missing (record_path "data" "04015") "atr"
    = Raise (Exception "No such file or directory")
  ∧ ∃ data,
      load_record rdrecord_three_samples rdann_missing "data" "04015"
        (Some [0]) = Ok data
      ∧ ld_signal data = [0; 0; 0]
      ∧ ld_sig_len data = 3
      ∧ ld_rhythm_labels data = None.
Proof.
  assert (¬ (250 == 0)%Q) as Hfs by (intros H; discriminate H).
  split; [reflexivity|]. split; [exact Hfs|]. split; [reflexivity|].
  destruct (load_record_without_annotation rdrecord_three_samples
              rdann_missing "data" "04015" (Some [0])
              {| p_signal := [0; 0; 0]; fs := 250; sig_len := 3 |}
              (Exception "No such file or directory")
              eq_refl Hfs eq_refl)
    as (data & Hok & _ & Hsig & _ & Hlen & Hnone).
  exists data. auto.
Defined.

Lemma process_records_skips_witness :
  let acc : Accum Z :=
    {| all_windows := []; all_labels := []; printed := [] |} in
  for_each (process_record rdrecord_unreadable rdann_missing "data" 1000 500)
    ["04015"] acc
  = Ok {| all_windows := []; all_labels := [];
          printed := ["Error with 04015: No such file or directory"] |}
  ∧ for_each
      (process_record rdrecord_three_samples rdann_missing "data" 1000 500)
      ["04015"] acc
    = Ok acc.
Proof.
  intros acc. split.
  - apply (proj1 (process_records_skips rdrecord_unreadable rdann_missing
                    "data" 1000 500 acc "04015" [])
             "No such file or directory").
    reflexivity.
  - apply (proj2 (process_records_skips rdrecord_three_samples rdann_missing
                    "data" 1000 500 acc "04015" [])
             {| ld_record_name := "04015"; ld_signal := [0; 0; 0];
                ld_fs := 250; ld_sig_len := 3;
                ld_duration := (inject_Z 3 / 250)%Q;
                ld_rhythm_labels := None |});
      reflexivity.
Defined.

Lemma split_records_deterministic_witness :
  listdir dir_ab ≡ₚ listdir dir_ba
  ∧ (∀ path, exists_ dir_ab path = exists_ dir_ba path)
  ∧ split_records split_first dir_ab (1 # 5)
    = split_records split_first dir_ba (1 # 5).
Proof.
  assert (listdir dir_ab ≡ₚ listdir dir_ba) as Hperm by apply perm_swap.
  assert (∀ path, exists_ dir_ab path = exists_ dir_ba path) as Hex
    by (intros path; reflexivity).
  split; [exact Hperm|]. split; [exact Hex|].
  exact (split_records_deterministic split_first dir_ab dir_ba (1 # 5)
           Hperm Hex).
Defined.

Lemma residual_blocks_preserve_shape_witness :
  ∃ m,
    KanResWideX_init 1 4 = Ok m
    ∧ 0 < 8 ∧ 0 < 495
    ∧ (true = false ∨ 8 * 495 ≠ 1)
    ∧ length (res_modules m) = 8%nat
    ∧ ∀ blk, blk ∈ res_modules m →
        KanResModule_forward true blk [8; 32; 495] = Ok [8; 32; 495].
Proof.
  eexists. split; [reflexivity|].
  assert (0 < 8) as Hn by lia.
  assert (0 < 495) as Hlen by lia.
  assert (true = false ∨ 8 * 495 ≠ 1) as Hmode by (right; lia).
  do 3 (split; [assumption|]).
  destruct (residual_blocks_preserve_shape 1 4 _ true 8 495
              eq_refl Hn Hlen Hmode) as (Hcount & Hblk & _).
  split; [exact Hcount|].
  intros blk Hin. exact (proj1 (Hblk blk Hin)).
Defined.


(** ** Worked examples *)

Example three_rhythms_changes :
  rhythm_changes three_rhythms = [(0, "(N"); (100, "(AFIB"); (250, "(N")].
Proof. reflexivity. Qed.

Example three_rhythms_labels :
  _get_rhythm_labels three_rhythms 300 =
  Ok (replicate 100 "normal" ++ replicate 150 "atrial_fibrillation"
      ++ replicate 50 "normal").
Proof. vm_compute. reflexivity. Qed.

(** A marker outside the table is labelled ["other"], and the samples
    before it stay ["unknown"]. *)
Example unmapped_marker_labels :
  _get_rhythm_labels {| sample := [1]; aux_note := [Some "(SVTA"] |} 3
  = Ok ["unknown"; "other"; "other"].
Proof. reflexivity. Qed.

(** Boundaries out of order: the first segment [[20, 5)] is empty, and the
    second one runs from 5 to the end. *)
Example reversed_rhythms_labels :
  _get_rhythm_labels reversed_rhythms 10 =
  Ok (replicate 5 "unknown" ++ replicate 5 "atrial_fibrillation").
Proof. reflexivity. Qed.

Example negative_length_raises :
  _get_rhythm_labels three_rhythms (-1)
  = Raise (Exception "negative dimensions are not allowed").
Proof. reflexivity. Qed.

Example windows_of_ramp :
  create_windows (Vector ramp) half_af 10 5 =
  Ok ([seqZ 0 10; seqZ 5 10; seqZ 10 10], [0; 1; 1]).
Proof. reflexivity. Qed.

Example windows_of_short_signal :
  create_windows (Vector [1; 2; 3]) [0; 0; 0] 10 5 = Ok ([], []).
Proof. reflexivity. Qed.

Example windows_with_zero_stride :
  create_windows (Vector [1; 2; 3]) [0; 0; 0] 2 0
  = Raise (Exception "range() arg 3 must not be zero").
Proof. reflexivity. Qed.

Example window_count_2000 : window_count 2000 1000 500 = 3.
Proof. reflexivity. Qed.

Example catalog_of_directory :
  _get_records
    {| listdir := ["08455.hea"; "04015.hea"; "04015.dat"; "00735-.hea";
                   "04043.hea"; "RECORDS"];
       exists_ := λ _, true |}
  = ["04015"; "04043"; "08455"].
Proof. reflexivity. Qed.

Example forward_default_model :
  (m ← KanResWideX_init 1 4; KanResWideX_forward false m [8; 1; 1000])
  = Ok [8; 4].
Proof. reflexivity. Qed.

(** Ten samples pass the stem and fail at the pooling. *)
Example forward_ten_samples :
  (m ← KanResWideX_init 1 4; KanResWideX_forward false m [8; 1; 10])
  = Raise (Exception "Output size is too small").
Proof. reflexivity. Qed.

(** A single window of eleven samples leaves one value per channel for
    the residual blocks, which batch normalisation refuses in training
    mode. *)
Example forward_single_value_training :
  (m ← KanResWideX_init 1 4; KanResWideX_forward true m [1; 1; 11])
  = Raise (Exception "Expected more than 1 value per channel when training").
Proof. reflexivity. Qed.

Example forward_single_value_eval :
  (m ← KanResWideX_init 1 4; KanResWideX_forward false m [1; 1; 11])
  = Ok [1; 4].
Proof. reflexivity. Qed.

(** * Further properties *)

(** ** Labels on arbitrary boundaries *)

Lemma label_segment_uncovered rc L (labels : list string) i j :
  Z.of_nat (length labels) = L →
  segment_covers rc L i j = false →
  label_segment rc L labels i !! j = labels !! j.
Proof.
  intros Hlen Hcov. unfold segment_covers in Hcov.
  destruct (rc !! i) as [[s a]|] eqn:Hi.
  - rewrite (label_segment_eq _ _ _ _ _ _ Hi), lookup_np_setslice, Hlen.
    rewrite Hcov. by destruct (labels !! j).
  - unfold label_segment. by rewrite Hi.
Qed.

Lemma label_segment_covered rc L (labels : list string) i j s a :
  Z.of_nat (length labels) = L → Z.of_nat j < L →
  rc !! i = Some (s, a) →
  segment_covers rc L i j = true →
  label_segment rc L labels i !! j = Some (rhythm_name a).
Proof.
  intros Hlen Hj Hi Hcov. unfold segment_covers in Hcov. rewrite Hi in Hcov.
  rewrite (label_segment_eq _ _ _ _ _ _ Hi), lookup_np_setslice, Hlen, Hcov.
  destruct (lookup_lt_is_Some_2 labels j ltac:(lia)) as [x ->]. done.
Qed.

Lemma label_loop_uncovered rc L (labels : list string) k n j :
  Z.of_nat (length labels) = L →
  (∀ i, (k ≤ i)%nat → segment_covers rc L i j = false) →
  foldl (label_segment rc L) labels (seq k n) !! j = labels !! j.
Proof.
  revert k labels. induction n as [|n IH]; intros k labels Hlen Hun; [done|].
  simpl. rewrite IH.
  - apply label_segment_uncovered; [done|]. apply Hun. lia.
  - by rewrite length_label_segment.
  - intros i ?. apply Hun. lia.
Qed.

Lemma label_loop_last rc L (labels : list string) k n i s a j :
  Z.of_nat (length labels) = L → Z.of_nat j < L →
  (k ≤ i < k + n)%nat →
  rc !! i = Some (s, a) →
  segment_covers rc L i j = true →
  (∀ i', (i < i')%nat → segment_covers rc L i' j = false) →
  foldl (label_segment rc L) labels (seq k n) !! j = Some (rhythm_name a).
Proof.
  revert k labels.
  induction n as [|n IH]; intros k labels Hlen Hj Hk Hi Hcov Hlast; [lia|].
  simpl. destruct (decide (k = i)) as [->|Hne].
  - rewrite label_loop_uncovered.
    + by eapply label_segment_covered.
    + by rewrite length_label_segment.
    + intros i' ?. apply Hlast. lia.
  - apply IH; try done; [|lia].
    by rewrite length_label_segment.
Qed.

(** X1: whatever the order and the range of the sample indices, the label
    of sample [j] is the name of the last boundary event whose slice
    [[sample:next_sample]] contains [j], and ["unknown"] when no slice
    contains it: later boundaries overwrite earlier ones. *)
Theorem get_rhythm_labels_last_writer (annotation : Annotation) (L : Z) :
  0 ≤ L →
  let rc := rhythm_changes annotation in
  ∃ labels,
    _get_rhythm_labels annotation L = Ok labels
    ∧ ∀ j, Z.of_nat j < L →
        (∀ i s aux,
           rc !! i = Some (s, aux) →
           segment_covers rc L i j = true →
           (∀ i', (i < i')%nat → segment_covers rc L i' j = false) →
           labels !! j = Some (default "other" (rhythm_map !! aux)))
        ∧ ((∀ i, segment_covers rc L i j = false) →
           labels !! j = Some "unknown").
Proof.
  intros HL rc. eexists. split; [by apply get_rhythm_labels_Ok|].
  fold rc. intros j Hj.
  assert (Z.of_nat (length (replicate (Z.to_nat L) "unknown")) = L) as Hlen.
  { rewrite length_replicate. lia. }
  split.
  - intros i s aux Hi Hcov Hlast.
    eapply (label_loop_last rc L _ 0 (length rc) i s aux j); try done.
    apply lookup_lt_Some in Hi. lia.
  - intros Hnone. rewrite label_loop_uncovered; [|done|auto].
    apply lookup_replicate_2. lia.
Qed.

Lemma get_rhythm_labels_last_writer_witness :
  0 ≤ 40
  ∧ ∃ labels,
      _get_rhythm_labels overlapping_rhythms 40 = Ok labels
      ∧ labels !! 35%nat = Some "normal"
      ∧ labels !! 5%nat = Some "unknown".
Proof.
  assert (0 ≤ 40) as HL by lia.
  split; [assumption|].
  destruct (get_rhythm_labels_last_writer overlapping_rhythms 40 HL)
    as (labels & Hok & Hlast).
  exists labels. split; [exact Hok|]. split.
  - apply (proj1 (Hlast 35%nat ltac:(lia)) 1%nat 10 "(N");
      [reflexivity|reflexivity|].
    intros [|[|i']] Hi'; [lia|lia|reflexivity].
  - apply (proj2 (Hlast 5%nat ltac:(lia))).
    intros [|[|i]]; reflexivity.
Defined.

(** ** Labels on ordered boundaries *)

Lemma segment_end_cons x rc i L :
  segment_end (x :: rc) (S i) L = segment_end rc i L.
Proof. reflexivity. Qed.

(** From the first boundary on, every sample lies in the segment of some
    boundary. *)
Lemma covering_segment_exists (rc : list (Z * string)) L j s0 a0 :
  rc !! 0%nat = Some (s0, a0) → s0 ≤ j → j < L →
  ∃ i s a, rc !! i = Some (s, a) ∧ s ≤ j < segment_end rc i L.
Proof.
  revert s0 a0. induction rc as [|[s a] rc IH]; intros s0 a0 H0 Hs0 HjL.
  { done. }
  simpl in H0. injection H0 as -> ->.
  destruct rc as [|[s1 a1] rc'].
  - exists 0%nat, s0, a0. split; [done|]. unfold segment_end. simpl. lia.
  - destruct (decide (j < s1)) as [Hlt|Hge].
    + exists 0%nat, s0, a0. split; [done|]. unfold segment_end. simpl. lia.
    + destruct (IH s1 a1 eq_refl ltac:(lia) HjL) as (i & s & a & Hi & Hseg).
      exists (S i), s, a. split; [done|]. by rewrite segment_end_cons.
Qed.

Lemma rhythm_name_af a : rhythm_name a = "atrial_fibrillation" ↔ a = "(AFIB".
Proof.
  unfold rhythm_name. split; [|by intros ->].
  destruct (rhythm_map !! a) as [name|] eqn:Ha; simpl; [|done].
  apply rhythm_map_lookup in Ha as [[-> ->]|[[-> ->]|[-> ->]]]; done.
Qed.

Lemma rhythm_name_known a : rhythm_name a ≠ "unknown".
Proof.
  unfold rhythm_name.
  destruct (rhythm_map !! a) as [name|] eqn:Ha; simpl; [|done].
  apply rhythm_map_lookup in Ha as [[-> ->]|[[-> ->]|[-> ->]]]; done.
Qed.

(** On ordered boundaries, a sample is either before the first boundary
    and ["unknown"], or in the segment of a boundary and named after
    it. *)
Lemma get_rhythm_labels_cases (annotation : Annotation) (L : Z) :
  0 ≤ L →
  Sorted Z.le (sample annotation) →
  Forall (λ s, 0 ≤ s) (sample annotation) →
  let rc := rhythm_changes annotation in
  ∃ labels,
    _get_rhythm_labels annotation L = Ok labels
    ∧ Z.of_nat (length labels) = L
    ∧ ∀ j, Z.of_nat j < L →
        ((∀ s a, rc !! 0%nat = Some (s, a) → Z.of_nat j < s)
         ∧ labels !! j = Some "unknown")
        ∨ (∃ i s a, rc !! i = Some (s, a)
             ∧ s ≤ Z.of_nat j < segment_end rc i L
             ∧ labels !! j = Some (rhythm_name a)).
Proof.
  intros HL Hsorted Hpos rc.
  assert (StronglySorted Z.le rc.*1) as Hrc_sorted.
  { apply rhythm_changes_sorted, Sorted_StronglySorted; [apply _|done]. }
  assert (Forall (λ s, 0 ≤ s) rc.*1) as Hrc_pos.
  { by apply rhythm_changes_fst_Forall. }
  eexists. split; [by apply get_rhythm_labels_Ok|]. fold rc.
  split; [rewrite length_label_loop, length_replicate; lia|].
  intros j Hj.
  destruct (rc !! 0%nat) as [[s0 a0]|] eqn:H0.
  - destruct (decide (Z.of_nat j < s0)) as [Hlt|Hge].
    + left. split; [by intros s a [= <- <-]|].
      rewrite label_loop_untouched; [apply lookup_replicate_2; lia|].
      intros i s a _ Hi.
      assert (0 ≤ s) as Hs0.
      { eapply (Forall_lookup_1 _ rc.*1 i s Hrc_pos).
        by rewrite list_lookup_fmap, Hi. }
      split; [done|]. assert (s0 ≤ s); [|lia].
      eapply (StronglySorted_lookup_le rc.*1 0 i); [done|lia|..].
      * by rewrite list_lookup_fmap, H0.
      * by rewrite list_lookup_fmap, Hi.
    + right.
      destruct (covering_segment_exists rc L (Z.of_nat j) s0 a0 H0)
        as (i & s & a & Hi & Hseg); [lia..|].
      exists i, s, a. split; [done|]. split; [done|].
      eapply (label_loop_segment rc L _ 0 (length rc) i s a j); try done.
      * by rewrite length_replicate.
      * lia.
  - left. split; [done|].
    rewrite label_loop_untouched; [apply lookup_replicate_2; lia|].
    intros i s a _ Hi. apply lookup_lt_Some in Hi.
    apply lookup_ge_None in H0. lia.
Qed.

Lemma get_rhythm_labels_segment_lookup (annotation : Annotation) (L : Z)
    labels i s a j :
  0 ≤ L →
  Sorted Z.le (sample annotation) →
  Forall (λ s, 0 ≤ s) (sample annotation) →
  _get_rhythm_labels annotation L = Ok labels →
  rhythm_changes annotation !! i = Some (s, a) →
  s ≤ Z.of_nat j < segment_end (rhythm_changes annotation) i L →
  Z.of_nat j < L →
  labels !! j = Some (rhythm_name a).
Proof.
  intros HL Hsorted Hpos Hok Hi Hseg Hj.
  rewrite get_rhythm_labels_Ok in Hok by done. injection Hok as <-.
  eapply (label_loop_segment _ L _ 0 _ i s a j); try done.
  - apply rhythm_changes_sorted, Sorted_StronglySorted; [apply _|done].
  - by apply rhythm_changes_fst_Forall.
  - by rewrite length_replicate.
  - lia.
Qed.

(** X2: on ordered, non-negative boundaries the labels have no gap: a
    sample is ["unknown"] exactly when it lies before the first boundary
    (or when there is no boundary at all). *)
Theorem get_rhythm_labels_unknown_iff (annotation : Annotation) (L : Z) :
  0 ≤ L →
  Sorted Z.le (sample annotation) →
  Forall (λ s, 0 ≤ s) (sample annotation) →
  ∃ labels,
    _get_rhythm_labels annotation L = Ok labels
    ∧ ∀ j, Z.of_nat j < L →
        (labels !! j = Some "unknown" ↔
         ∀ s aux, rhythm_changes annotation !! 0%nat = Some (s, aux) →
                  Z.of_nat j < s).
Proof.
  intros HL Hsorted Hpos.
  destruct (get_rhythm_labels_cases annotation L HL Hsorted Hpos)
    as (labels & Hok & Hlen & Hcases).
  exists labels. split; [done|]. intros j Hj.
  destruct (Hcases j Hj) as [[Hbefore Hu]|(i & s & a & Hi & Hseg & Hlab)].
  - by split.
  - split.
    + rewrite Hlab. intros [= Hname]. by apply rhythm_name_known in Hname.
    + intros Hbefore. exfalso.
      destruct (lookup_lt_is_Some_2 (rhythm_changes annotation) 0)
        as [[s0 a0] H0]; [apply lookup_lt_Some in Hi; lia|].
      specialize (Hbefore s0 a0 H0).
      assert (s0 ≤ s); [|lia].
      eapply (StronglySorted_lookup_le (rhythm_changes annotation).*1 0 i).
      * apply rhythm_changes_sorted, Sorted_StronglySorted; [apply _|done].
      * lia.
      * by rewrite list_lookup_fmap, H0.
      * by rewrite list_lookup_fmap, Hi.
Qed.

Lemma get_rhythm_labels_unknown_iff_witness :
  0 ≤ 300
  ∧ Sorted Z.le (sample three_rhythms)
  ∧ Forall (λ s, 0 ≤ s) (sample three_rhythms)
  ∧ ∃ labels,
      _get_rhythm_labels three_rhythms 300 = Ok labels
      ∧ labels !! 120%nat ≠ Some "unknown".
Proof.
  assert (0 ≤ 300) as HL by lia.
  assert (Sorted Z.le (sample three_rhythms)) as Hsorted.
  { repeat constructor; simpl; lia. }
  assert (Forall (λ s, 0 ≤ s) (sample three_rhythms)) as Hpos.
  { repeat constructor; simpl; lia. }
  do 3 (split; [assumption|]).
  destruct (get_rhythm_labels_unknown_iff three_rhythms 300 HL Hsorted Hpos)
    as (labels & Hok & Hiff).
  exists labels. split; [exact Hok|].
  intros Hu.
  pose proof (proj1 (Hiff 120%nat ltac:(lia)) Hu 0 "(N" eq_refl). lia.
Defined.

Lemma lookup_binary_labels_of labels j :
  binary_labels_of labels !! j = Some 1 ↔
  labels !! j = Some "atrial_fibrillation".
Proof.
  unfold binary_labels_of. rewrite list_lookup_fmap.
  destruct (labels !! j) as [x|]; simpl; [|done].
  destruct (String.eqb_spec x "atrial_fibrillation") as [->|Hne].
  - done.
  - split; [done|]. intros [= ->]. done.
Qed.

(** X3: on ordered, non-negative boundaries, the binary label that
    [process_records] derives for a sample is 1 exactly when the sample
    lies in the segment of a boundary whose marker is ["(AFIB"]; every
    other marker, and the samples before the first boundary, give 0. *)
Theorem binary_labels_af_iff (annotation : Annotation) (L : Z) :
  0 ≤ L →
  Sorted Z.le (sample annotation) →
  Forall (λ s, 0 ≤ s) (sample annotation) →
  let rc := rhythm_changes annotation in
  ∃ labels,
    _get_rhythm_labels annotation L = Ok labels
    ∧ length (binary_labels_of labels) = Z.to_nat L
    ∧ Forall (λ b, b = 0 ∨ b = 1) (binary_labels_of labels)
    ∧ ∀ j, Z.of_nat j < L →
        (binary_labels_of labels !! j = Some 1 ↔
         ∃ i s, rc !! i = Some (s, "(AFIB")
                ∧ s ≤ Z.of_nat j < segment_end rc i L).
Proof.
  intros HL Hsorted Hpos rc.
  destruct (get_rhythm_labels_cases annotation L HL Hsorted Hpos)
    as (labels & Hok & Hlen & Hcases).
  exists labels. split; [done|].
  split; [unfold binary_labels_of; rewrite length_fmap; lia|].
  split.
  { unfold binary_labels_of. apply Forall_fmap, Forall_forall.
    intros x _. simpl. destruct (String.eqb x _); auto. }
  intros j Hj. rewrite lookup_binary_labels_of. fold rc in Hcases.
  destruct (Hcases j Hj) as [[Hbefore Hu]|(i & s & a & Hi & Hseg & Hlab)].
  - rewrite Hu. split; [done|].
    intros (i & s & Hi & Hseg). exfalso.
    destruct (lookup_lt_is_Some_2 rc 0) as [[s0 a0] H0];
      [apply lookup_lt_Some in Hi; lia|].
    specialize (Hbefore s0 a0 H0).
    assert (s0 ≤ s); [|lia].
    eapply (StronglySorted_lookup_le rc.*1 0 i).
    + apply rhythm_changes_sorted, Sorted_StronglySorted; [apply _|done].
    + lia.
    + by rewrite list_lookup_fmap, H0.
    + by rewrite list_lookup_fmap, Hi.
  - rewrite Hlab. split.
    + intros [= Hname]. apply rhythm_name_af in Hname as ->. eauto.
    + intros (i' & s' & Hi' & Hseg').
      pose proof (get_rhythm_labels_segment_lookup annotation L labels
                    i' s' "(AFIB" j HL Hsorted Hpos Hok Hi' Hseg' Hj)
        as Hlab'.
      by rewrite Hlab in Hlab'.
Qed.

Lemma binary_labels_af_iff_witness :
  0 ≤ 300
  ∧ Sorted Z.le (sample three_rhythms)
  ∧ Forall (λ s, 0 ≤ s) (sample three_rhythms)
  ∧ ∃ labels,
      _get_rhythm_labels three_rhythms 300 = Ok labels
      ∧ binary_labels_of labels !! 120%nat = Some 1.
Proof.
  assert (0 ≤ 300) as HL by lia.
  assert (Sorted Z.le (sample three_rhythms)) as Hsorted.
  { repeat constructor; simpl; lia. }
  assert (Forall (λ s, 0 ≤ s) (sample three_rhythms)) as Hpos.
  { repeat constructor; simpl; lia. }
  do 3 (split; [assumption|]).
  destruct (binary_labels_af_iff three_rhythms 300 HL Hsorted Hpos)
    as (labels & Hok & _ & _ & Hiff).
  exists labels. split; [exact Hok|].
  apply (proj2 (Hiff 120%nat ltac:(lia))).
  exists 1%nat, 100. split; [reflexivity|].
  vm_compute. split; [discriminate|reflexivity].
Defined.

(** ** Loading a record, continued *)

(** X4: whenever [load_record] returns rhythm labels, there is one label
    per sample of the record (as many as [sig_len]) and each is one of
    the five names. *)
Theorem load_record_labels_length {F : Type}
    (rdrecord : string → option (list Z) → result (WfdbRecord F))
    (rdann : string → string → result Annotation)
    (data_path record_name : string) (channels : option (list Z))
    (data : LoadedRecord F) (labels : list string) :
  load_record rdrecord rdann data_path record_name channels = Ok data →
  ld_rhythm_labels data = Some labels →
  Z.of_nat (length labels) = ld_sig_len data
  ∧ Forall (λ x, x ∈ label_names) labels.
Proof.
  unfold load_record. intros Hload Hlabels.
  destruct (match channels with
            | Some (_ :: _) =>
                rdrecord (record_path data_path record_name) channels
            | _ => rdrecord (record_path data_path record_name) None
            end) as [record|]; [|done].
  cbn [mbind result_bind] in Hload.
  destruct (py_truediv _ _) as [duration|]; [|done].
  cbn [mbind result_bind] in Hload. injection Hload as <-.
  cbn [ld_rhythm_labels ld_sig_len] in *.
  destruct (rdann _ _) as [annotation|]; [|done].
  cbn [mbind result_bind] in Hlabels.
  unfold _get_rhythm_labels, np_full in Hlabels.
  case_bool_decide; [done|].
  cbn [mbind result_bind] in Hlabels. injection Hlabels as <-. split.
  - rewrite length_label_loop, length_replicate. lia.
  - apply label_loop_names, Forall_replicate. set_solver.
Qed.

(** X5: [load_record] raises in two cases only: when reading the signal
    raises (the same exception), or when the sampling frequency read from
    the header is zero (division by zero); a failure to read or to expand
    the annotations never makes it raise. *)
Theorem load_record_raises_iff {F : Type}
    (rdrecord : string → option (list Z) → result (WfdbRecord F))
    (rdann : string → string → result Annotation)
    (data_path record_name : string) (channels : option (list Z))
    (e : exn) :
  let read :=
    rdrecord (record_path data_path record_name)
      (match channels with Some (_ :: _) => channels | _ => None end) in
  load_record rdrecord rdann data_path record_name channels = Raise e ↔
  read = Raise e
  ∨ (∃ record, read = Ok record ∧ (fs record == 0)%Q
               ∧ e = Exception "division by zero").
Proof.
  intros read. unfold load_record.
  assert (match channels with
          | Some (_ :: _) =>
              rdrecord (record_path data_path record_name) channels
          | _ => rdrecord (record_path data_path record_name) None
          end = read) as ->.
  { by destruct channels as [[|c cs]|]. }
  destruct read as [record|e'] eqn:Hread; cbn [mbind result_bind].
  - unfold py_truediv. destruct (Qeq_bool (fs record) 0) eqn:Hz.
    + cbn [mbind result_bind]. split.
      * intros [= <-]. right. exists record.
        split; [done|]. split; [by apply Qeq_bool_iff|done].
      * intros [[=]|(record' & [= <-] & _ & ->)]. done.
    + cbn [mbind result_bind]. split; [done|].
      intros [[=]|(record' & [= <-] & Hfs & _)].
      apply Qeq_bool_iff in Hfs. congruence.
  - split.
    + intros [= <-]. by left.
    + by intros [[= <-]|(record' & [=] & _)].
Qed.

Lemma load_record_labels_length_witness :
  ∃ data labels,
    load_record rdrecord_300 rdann_three_rhythms "data" "04015" (Some [0])
      = Ok data
    ∧ ld_rhythm_labels data = Some labels
    ∧ Z.of_nat (length labels) = 300.
Proof.
  eexists _, _. split; [reflexivity|]. split; [reflexivity|].
  exact (proj1 (load_record_labels_length rdrecord_300 rdann_three_rhythms
                  "data" "04015" (Some [0]) _ _ eq_refl eq_refl)).
Defined.

(** ** Windows, continued *)

(** X6: for [0 < S] and [0 < W ≤ L], the last window ends less than [S]
    samples before the end of the signal, so fewer than [S] trailing
    samples are dropped; and when [S ≤ W], every sample before the end of
    the last window is contained, at its offset, in some window. *)
Theorem create_windows_coverage {F : Type} (signal : list F)
    (labels : list Z) (W S : Z) :
  0 < W → 0 < S → W ≤ Z.of_nat (length signal) →
  ∃ windows window_labels,
    create_windows (Vector signal) labels W S = Ok (windows, window_labels)
    ∧ let n := Z.of_nat (length windows) in
      1 ≤ n
      ∧ (n - 1) * S + W ≤ Z.of_nat (length signal) < n * S + W
      ∧ (S ≤ W →
         ∀ j, Z.of_nat j < (n - 1) * S + W →
           ∃ k w, windows !! k = Some w
                  ∧ Z.of_nat k * S ≤ Z.of_nat j < Z.of_nat k * S + W
                  ∧ w !! (j - Z.to_nat (Z.of_nat k * S))%nat = signal !! j).
Proof.
  intros HW HS HWL. set (L := Z.of_nat (length signal)) in *.
  eexists _, _. split; [by apply create_windows_Ok|]. fold L.
  rewrite !length_fmap, length_seqZ.
  assert (window_count L W S = (L - W) `div` S + 1) as Hcount.
  { unfold window_count. by rewrite bool_decide_eq_false_2 by lia. }
  assert (0 ≤ (L - W) `div` S) as Hdiv by (apply Z.div_pos; lia).
  pose proof (Z.mul_div_le (L - W) S HS) as Hlow.
  pose proof (Z.mul_succ_div_gt (L - W) S HS) as Hhigh.
  rewrite Z2Nat.id by lia. rewrite Hcount.
  split; [lia|]. split; [nia|].
  intros HSW j Hj.
  set (n := (L - W) `div` S + 1) in *.
  set (k := Z.min (Z.of_nat j `div` S) (n - 1)).
  assert (0 ≤ Z.of_nat j `div` S) as Hjdiv by (apply Z.div_pos; lia).
  pose proof (Z.mul_div_le (Z.of_nat j) S HS) as Hjlow.
  pose proof (Z.mul_succ_div_gt (Z.of_nat j) S HS) as Hjhigh.
  assert (0 ≤ k < n) as Hk by (unfold k; lia).
  assert (k * S ≤ Z.of_nat j < k * S + W) as Hin.
  { unfold k. destruct (Z.min_spec (Z.of_nat j `div` S) (n - 1))
      as [[? ->]|[? ->]]; nia. }
  exists (Z.to_nat k), (take (Z.to_nat W) (drop (Z.to_nat (k * S)) signal)).
  rewrite !Z2Nat.id by lia. split; [|split; [done|]].
  - rewrite !list_lookup_fmap, lookup_seqZ_lt by (rewrite Z2Nat.id; lia).
    simpl. rewrite Z2Nat.id by lia. f_equal.
    apply py_slice_inside; [nia|lia|]. fold L. nia.
  - rewrite lookup_take_lt by lia. rewrite lookup_drop. f_equal. nia.
Qed.

Lemma create_windows_coverage_witness :
  0 < 10 ∧ 0 < 5 ∧ 10 ≤ Z.of_nat (length ramp)
  ∧ ∃ windows window_labels,
      create_windows (Vector ramp) half_af 10 5 = Ok (windows, window_labels)
      ∧ 1 ≤ Z.of_nat (length windows).
Proof.
  assert (0 < 10) as HW by lia.
  assert (0 < 5) as HS by lia.
  assert (10 ≤ Z.of_nat (length ramp)) as HWL by (vm_compute; discriminate).
  do 3 (split; [assumption|]).
  destruct (create_windows_coverage ramp half_af 10 5 HW HS HWL)
    as (windows & window_labels & Hok & Hn & _).
  exists windows, window_labels. split; [exact Hok|exact Hn].
Defined.

Lemma np_sum_const (seg : list Z) b :
  Forall (λ x, x = b) seg → np_sum seg = b * Z.of_nat (length seg).
Proof.
  induction 1 as [|x seg -> _ IH]; unfold np_sum in *; simpl; [lia|].
  rewrite IH. lia.
Qed.

(** X7: a window whose labels are all 1 is labelled 1, and a window whose
    labels are all 0 is labelled 0. *)
Theorem create_windows_pure_window {F : Type} (signal : list F)
    (labels : list Z) (W S b : Z) :
  0 < W → 0 < S →
  length labels = length signal →
  b = 0 ∨ b = 1 →
  ∃ windows window_labels,
    create_windows (Vector signal) labels W S = Ok (windows, window_labels)
    ∧ ∀ k y,
        window_labels !! k = Some y →
        (∀ j, Z.of_nat k * S ≤ Z.of_nat j < Z.of_nat k * S + W →
              labels !! j = Some b) →
        y = b.
Proof.
  intros HW HS Hlen Hb.
  eexists _, _. split; [by apply create_windows_Ok|].
  intros k y. rewrite !list_lookup_fmap.
  destruct (seqZ 0 _ !! k) as [k'|] eqn:Hk; [|done].
  apply lookup_seqZ in Hk as [-> Hk]. simpl. intros [= <-] Hall.
  apply window_count_fits in Hk; [|lia..].
  replace (0 + Z.of_nat k) with (Z.of_nat k) in * by lia.
  destruct (py_slice_inside labels (Z.of_nat k * S) W) as [Hseg HsegW];
    [lia..|].
  unfold window_label. rewrite Hseg in *.
  set (seg := take (Z.to_nat W) (drop (Z.to_nat (Z.of_nat k * S)) labels))
    in *.
  assert (seg ≠ []) as Hne
    by (intros Heq; rewrite Heq in HsegW; simpl in *; lia).
  assert (Forall (λ x, x = b) seg) as Hconst.
  { apply Forall_lookup. intros i x Hi. unfold seg in Hi.
    apply lookup_take_Some in Hi as [Hi Hlt].
    rewrite lookup_drop in Hi.
    rewrite Hall in Hi by lia. congruence. }
  pose proof (ge_half_mean seg Hne) as Hmean.
  rewrite (np_sum_const seg b Hconst), !HsegW in Hmean.
  pose proof (half_le_ratio (b * W) W HW) as Hratio.
  destruct (ge_half (np_mean seg)).
  - assert (W ≤ 2 * (b * W)) by (by apply Hratio, Hmean).
    destruct Hb as [-> | ->]; lia.
  - destruct Hb as [-> | ->]; [done|].
    assert (false = true); [|done].
    apply Hmean, Hratio. lia.
Qed.

Lemma create_windows_pure_window_witness :
  0 < 10 ∧ 0 < 5
  ∧ length half_af = length ramp
  ∧ (0 = 0 ∨ 0 = 1)
  ∧ ∃ windows window_labels,
      create_windows (Vector ramp) half_af 10 5 = Ok (windows, window_labels)
      ∧ ∀ y, window_labels !! 0%nat = Some y → y = 0.
Proof.
  assert (0 < 10) as HW by lia.
  assert (0 < 5) as HS by lia.
  assert (length half_af = length ramp) as Hlen by reflexivity.
  assert (0 = 0 ∨ 0 = 1) as Hb by (left; reflexivity).
  do 4 (split; [assumption|]).
  destruct (create_windows_pure_window ramp half_af 10 5 0 HW HS Hlen Hb)
    as (windows & window_labels & Hok & Hpure).
  exists windows, window_labels. split; [exact Hok|].
  intros y Hy. apply (Hpure 0%nat y Hy).
  intros j Hj.
  assert (j < 10)%nat as Hj10 by lia.
  do 10 (destruct j as [|j]; [reflexivity|]). lia.
Defined.

(** ** Processing a list of records *)

Section ProcessRecords.
Context {F : Type}.
Variable rdrecord : string → option (list Z) → result (WfdbRecord F).
Variable rdann : string → string → result Annotation.
Variable data_path : string.
Variables window_size stride : Z.

Lemma create_windows_raises (signal : ndarray F) labels e :
  create_windows signal labels window_size stride = Raise e →
  ∃ msg, e = Exception msg.
Proof.
  unfold create_windows.
  destruct signal as [x|l]; cbn [py_len mbind result_bind].
  { intros [= <-]. eauto. }
  destruct (py_range 0 _ stride) as [starts|e'] eqn:Hrange;
    cbn [mbind result_bind].
  - rewrite for_each_window_step. cbn [mbind result_bind fst snd].
    unfold np_array_rows. rewrite !app_nil_l.
    destruct ((λ st, py_slice l st (st + window_size)) <$> starts)
      as [|r rows]; cbn [mbind result_bind]; [done|].
    destruct (forallb _ _); cbn [mbind result_bind]; [done|].
    intros [= <-]. eauto.
  - intros [= <-]. unfold py_range in Hrange.
    repeat case_bool_decide; simplify_eq. eauto.
Qed.

(** A record either contributes the arrays of its windows or leaves the
    accumulated arrays as they are. *)
Lemma process_record_contribution (acc : Accum F) r :
  (∀ msg, load_record rdrecord rdann data_path r (Some [0])
          ≠ Raise (BaseException msg)) →
  let contribution :=
    record_contribution rdrecord rdann data_path window_size stride r in
  ∃ out,
    process_record rdrecord rdann data_path window_size stride acc r =
    Ok {| all_windows := all_windows acc ++ (option_list contribution).*1;
          all_labels := all_labels acc ++ (option_list contribution).*2;
          printed := out |}.
Proof.
  intros Hint contribution. subst contribution.
  unfold process_record, try_record, record_contribution.
  destruct (load_record rdrecord rdann data_path r (Some [0]))
    as [data|[msg|msg]] eqn:Hload; cbn [mbind result_bind].
  - destruct (ld_rhythm_labels data) as [labs|].
    + destruct (create_windows _ _ _ _) as [[windows labels]|e] eqn:Hcw;
        cbn [mbind result_bind].
      * eexists. reflexivity.
      * apply create_windows_raises in Hcw as [msg ->].
        eexists. simpl. by rewrite !app_nil_r.
    + exists (printed acc). simpl. rewrite !app_nil_r. by destruct acc.
  - eexists. simpl. by rewrite !app_nil_r.
  - by destruct (Hint msg).
Qed.

Lemma process_loop_contributions records (acc : Accum F) :
  no_interrupt rdrecord rdann data_path records →
  let contributions :=
    omap (record_contribution rdrecord rdann data_path window_size stride)
      records in
  ∃ out,
    for_each (process_record rdrecord rdann data_path window_size stride)
      records acc =
    Ok {| all_windows := all_windows acc ++ contributions.*1;
          all_labels := all_labels acc ++ contributions.*2;
          printed := out |}.
Proof.
  revert acc. induction records as [|r records IH]; intros acc Hint.
  - exists (printed acc). simpl. rewrite !app_nil_r. by destruct acc.
  - destruct (process_record_contribution acc r) as [out1 Hstep].
    { intros msg. apply Hint. apply list_elem_of_here. }
    cbn [for_each]. rewrite Hstep. cbn [mbind result_bind].
    edestruct IH as [out2 Hrest].
    { intros r' msg Hr'. apply Hint. by apply list_elem_of_further. }
    exists out2. rewrite Hrest. cbn [all_windows all_labels omap list_omap].
    destruct (record_contribution _ _ _ _ _ r) as [[windows labels]|];
      simpl; by rewrite <- ?app_assoc, ?app_nil_r.
Qed.
End ProcessRecords.

Lemma create_windows_Vector_shape {F} (l : list F) labels W S windows wl :
  0 < W → 0 < S →
  create_windows (Vector l) labels W S = Ok (windows, wl) →
  Forall (λ row, Z.of_nat (length row) = W) windows
  ∧ length windows = length wl
  ∧ Forall (λ b, b = 0 ∨ b = 1) wl
  ∧ (windows = [] ↔ Z.of_nat (length l) < W).
Proof.
  intros HW HS. rewrite create_windows_Ok by done. intros [= <- <-].
  split; [|split; [|split]].
  - apply Forall_fmap, Forall_fmap, Forall_forall.
    intros k [Hk0 Hk]%elem_of_seqZ. simpl.
    apply window_count_fits in Hk; [|lia..].
    destruct (py_slice_inside l (k * S) W) as [_ Hlen]; lia.
  - by rewrite !length_fmap.
  - apply Forall_fmap, Forall_forall. intros st _. simpl.
    unfold window_label. destruct (ge_half _); auto.
  - unfold window_count. case_bool_decide as Hlt.
    + split; [done|]. intros _. done.
    + split; [|lia]. intros Hnil. exfalso.
      assert (0 ≤ (Z.of_nat (length l) - W) `div` S)
        by (apply Z.div_pos; lia).
      apply (f_equal length) in Hnil.
      rewrite !length_fmap, length_seqZ in Hnil. simpl in Hnil. lia.
Qed.

Lemma create_windows_stride_0 {F} (signal : ndarray F) labels W :
  ∃ msg, create_windows signal labels W 0 = Raise (Exception msg).
Proof.
  unfold create_windows. destruct signal as [x|l]; simpl; eauto.
Qed.

Lemma np_vstack_uniform {F} (arrs : list (list (list F))) n :
  arrs ≠ [] →
  Forall (λ a, a ≠ [] ∧ Forall (λ row, length row = n) a) arrs →
  np_vstack arrs = Ok (concat arrs).
Proof.
  intros Hne Hall. unfold np_vstack.
  assert (atleast_2d <$> arrs = arrs) as ->.
  { clear Hne. induction Hall as [|a arrs [Ha _] _ IH]; [done|].
    rewrite fmap_cons, IH. by destruct a. }
  assert (Forall (λ row, length row = n) (concat arrs)) as Hrows.
  { apply Forall_concat. eapply Forall_impl; [done|]. by intros a [_ ?]. }
  destruct (concat arrs) as [|r rows] eqn:Hc.
  - destruct Hall as [|a arrs' [Ha _] _]; [done|]. simpl in Hc.
    by destruct a.
  - apply Forall_cons in Hrows as [Hr Hrows].
    assert (forallb (λ r', bool_decide (length r' = length r)) rows = true)
      as ->; [|done].
    apply forallb_forall. intros r' Hin.
    apply bool_decide_eq_true. rewrite Forall_forall in Hrows.
    rewrite Hr. apply Hrows. exact (proj2 (list_elem_of_In _ _) Hin).
Qed.



Lemma np_vstack_all_empty {F} n :
  np_vstack (replicate (S n) ([] : list (list F)))
  = Ok (replicate (S n) []).
Proof.
  unfold np_vstack.
  assert (∀ k, concat (atleast_2d <$> replicate k ([] : list (list F)))
               = replicate k []) as Hrows.
  { intros k. induction k as [|k IH]; [done|].
    cbn [replicate fmap list_fmap concat atleast_2d]. by rewrite IH. }
  rewrite Hrows. cbn [replicate].
  assert (forallb (λ r' : list F, bool_decide (length r' = length (@nil F)))
            (replicate n []) = true) as ->; [|done].
  apply forallb_forall. intros r' Hin.
  apply (proj2 (list_elem_of_In _ _)) in Hin.
  apply elem_of_replicate in Hin as [-> _]. done.
Qed.

Lemma squeeze_Vector {F} (column : list F) :
  length column ≠ 1%nat → squeeze column = Vector column.
Proof. by destruct column as [|x [|y l]]. Qed.

Lemma contribution_shape {F : Type}
    (rdrecord : string → option (list Z) → result (WfdbRecord F))
    (rdann : string → string → result Annotation)
    (data_path : string) (W S : Z) (r : string) windows wl :
  0 < W → 0 < S →
  record_contribution rdrecord rdann data_path W S r = Some (windows, wl) →
  ∃ data labs,
    load_record rdrecord rdann data_path r (Some [0]) = Ok data
    ∧ ld_rhythm_labels data = Some labs
    ∧ Forall (λ row, Z.of_nat (length row) = W) windows
    ∧ length windows = length wl
    ∧ Forall (λ b, b = 0 ∨ b = 1) wl
    ∧ (windows = [] ↔ Z.of_nat (length (ld_signal data)) < W).
Proof.
  intros HW HS. unfold record_contribution.
  destruct (load_record _ _ _ _ _) as [data|] eqn:Hload; [|done].
  destruct (ld_rhythm_labels data) as [labs|] eqn:Hlabs; [|done].
  destruct (create_windows _ _ _ _) as [wl'|] eqn:Hcw; [|done].
  intros [= ->]. exists data, labs. do 2 (split; [done|]).
  destruct (decide (length (ld_signal data) = 1%nat)) as [H1|H1].
  - destruct (ld_signal data) as [|x [|y l]]; try done.
  - rewrite squeeze_Vector in Hcw by done.
    by apply (create_windows_Vector_shape _ _ _ _ _ _ HW HS Hcw).
Qed.

Lemma contribution_labelled {F : Type}
    (rdrecord : string → option (list Z) → result (WfdbRecord F))
    (rdann : string → string → result Annotation)
    (data_path : string) (W S : Z) (r : string) data labs :
  0 < W → 0 < S →
  load_record rdrecord rdann data_path r (Some [0]) = Ok data →
  ld_rhythm_labels data = Some labs →
  length (ld_signal data) ≠ 1%nat →
  ∃ windows wl,
    record_contribution rdrecord rdann data_path W S r = Some (windows, wl)
    ∧ Forall (λ row, Z.of_nat (length row) = W) windows
    ∧ (windows = [] ↔ Z.of_nat (length (ld_signal data)) < W)
    ∧ (windows = [] → wl = []).
Proof.
  intros HW HS Hload Hlabs H1. unfold record_contribution.
  rewrite Hload, Hlabs, squeeze_Vector by done.
  destruct (create_windows _ _ _ _) as [[windows wl]|] eqn:Hcw.
  - exists windows, wl. split; [done|].
    destruct (create_windows_Vector_shape _ _ _ _ _ _ HW HS Hcw)
      as (Hrows & Hlen & _ & Hnil).
    split; [done|]. split; [done|].
    intros ->. by destruct wl.
  - by rewrite create_windows_Ok in Hcw.
Qed.

Lemma concat_lengths_eq {A B} (cs : list (list A * list B)) :
  Forall (λ c, length c.1 = length c.2) cs →
  length (concat cs.*1) = length (concat cs.*2).
Proof.
  induction 1 as [|[a b] cs Hc _ IH]; [done|].
  rewrite !fmap_cons. cbn [concat fst snd] in *.
  rewrite !length_app. lia.
Qed.

Lemma process_records_contributions {F : Type}
    (rdrecord : string → option (list Z) → result (WfdbRecord F))
    (rdann : string → string → result Annotation)
    (data_path : string) (W S : Z) (records out : list string) :
  no_interrupt rdrecord rdann data_path records →
  let contributions :=
    omap (record_contribution rdrecord rdann data_path W S) records in
  ∃ out',
    process_records rdrecord rdann data_path W S records out =
    match contributions.*1 with
    | [] => Ok ([], [], out')
    | _ => X ← np_vstack contributions.*1;
           Ok (X, concat contributions.*2, out')
    end.
Proof.
  intros Hint contributions. unfold process_records, process_loop.
  destruct (process_loop_contributions rdrecord rdann data_path W S records
              {| all_windows := []; all_labels := []; printed := out |} Hint)
    as [out' ->].
  exists out'. cbn [mbind result_bind all_windows all_labels printed].
  by rewrite !app_nil_l.
Qed.

(** X8: with a stride of 0 no record yields a window: [range] refuses
    the step, the [except Exception] handler turns that into a skipped
    record, and [process_records] returns two empty arrays instead of
    raising. *)
Theorem process_records_zero_stride {F : Type}
    (rdrecord : string → option (list Z) → result (WfdbRecord F))
    (rdann : string → string → result Annotation)
    (data_path : string) (W : Z) (records out : list string) :
  no_interrupt rdrecord rdann data_path records →
  ∃ out',
    process_records rdrecord rdann data_path W 0 records out
    = Ok ([], [], out').
Proof.
  intros Hint.
  destruct (process_records_contributions rdrecord rdann data_path W 0
              records out Hint) as [out' ->].
  exists out'.
  assert (omap (record_contribution rdrecord rdann data_path W 0) records
          = []) as ->; [|done].
  clear Hint. induction records as [|r records IH]; [done|].
  cbn [omap list_omap]. rewrite IH.
  unfold record_contribution.
  destruct (load_record _ _ _ _ _) as [data|]; [|done].
  destruct (ld_rhythm_labels data) as [labs|]; [|done].
  by destruct (create_windows_stride_0 (squeeze (ld_signal data))
                 (binary_labels_of labs) W) as [msg ->].
Qed.

(** X9: when the window size and the stride are positive and every
    record that loads with labels has at least [W] samples,
    [process_records] returns the windows and the labels of the
    non-skipped records, in the order of the record list; there is one
    label per window, every window has [W] samples and every label is 0
    or 1. *)
Theorem process_records_aligned {F : Type}
    (rdrecord : string → option (list Z) → result (WfdbRecord F))
    (rdann : string → string → result Annotation)
    (data_path : string) (W S : Z) (records out : list string) :
  0 < W → 0 < S →
  no_interrupt rdrecord rdann data_path records →
  (∀ r data labs,
     r ∈ records →
     load_record rdrecord rdann data_path r (Some [0]) = Ok data →
     ld_rhythm_labels data = Some labs →
     W ≤ Z.of_nat (length (ld_signal data))) →
  let contributions :=
    omap (record_contribution rdrecord rdann data_path W S) records in
  ∃ X y out',
    process_records rdrecord rdann data_path W S records out
    = Ok (X, y, out')
    ∧ X = concat contributions.*1
    ∧ y = concat contributions.*2
    ∧ length X = length y
    ∧ Forall (λ row, Z.of_nat (length row) = W) X
    ∧ Forall (λ b, b = 0 ∨ b = 1) y.
Proof.
  intros HW HS Hint Hlong contributions.
  assert (Forall (λ c, c.1 ≠ []
                       ∧ Forall (λ row, length row = Z.to_nat W) c.1
                       ∧ length c.1 = length c.2
                       ∧ Forall (λ b, b = 0 ∨ b = 1) c.2) contributions)
    as Hshape.
  { apply Forall_forall. intros [windows wl] Hc.
    apply list_elem_of_omap in Hc as (r & Hr & Hc).
    destruct (contribution_shape _ _ _ _ _ _ _ _ HW HS Hc)
      as (data & labs & Hload & Hlabs & Hrows & Hlen & Hbin & Hnil).
    simpl. split; [|split; [|done]].
    - intros Hw. apply Hnil in Hw.
      specialize (Hlong r data labs Hr Hload Hlabs). lia.
    - eapply Forall_impl; [done|]. intros row ?. simpl in *. lia. }
  destruct (process_records_contributions rdrecord rdann data_path W S
              records out Hint) as [out' Hrun].
  fold contributions in Hrun.
  assert (length (concat contributions.*1)
          = length (concat contributions.*2)) as Hlens.
  { apply concat_lengths_eq. eapply Forall_impl; [done|]. by intros c (_&_&?&_). }
  assert (Forall (λ row, Z.of_nat (length row) = W)
            (concat contributions.*1)) as Hrows.
  { apply Forall_concat, Forall_fmap. eapply Forall_impl; [done|].
    intros c (_ & Hc & _). simpl.
    eapply Forall_impl; [done|]. intros row ?. simpl in *. lia. }
  assert (Forall (λ b, b = 0 ∨ b = 1) (concat contributions.*2)) as Hbin.
  { apply Forall_concat, Forall_fmap. eapply Forall_impl; [done|].
    by intros c (_ & _ & _ & ?). }
  exists (concat contributions.*1), (concat contributions.*2), out'.
  split; [|done]. rewrite Hrun.
  destruct (contributions.*1) as [|a arrs] eqn:Hws.
  - destruct contributions; [done|discriminate Hws].
  - rewrite (np_vstack_uniform _ (Z.to_nat W)); [done|done|].
    rewrite <- Hws. apply Forall_fmap. eapply Forall_impl; [done|].
    by intros c (? & ? & _).
Qed.


(** X11: when every record of a non-empty list has rhythm labels but
    fewer samples than the window size, [process_records] returns an
    array with one row of length 0 per record and no label at all, so
    that the two arrays disagree on the number of windows. *)
Theorem process_records_all_short {F : Type}
    (rdrecord : string → option (list Z) → result (WfdbRecord F))
    (rdann : string → string → result Annotation)
    (data_path : string) (W S : Z) (records out : list string) :
  0 < W → 0 < S →
  records ≠ [] →
  (∀ r, r ∈ records →
     ∃ data labs,
       load_record rdrecord rdann data_path r (Some [0]) = Ok data
       ∧ ld_rhythm_labels data = Some labs
       ∧ Z.of_nat (length (ld_signal data)) < W
       ∧ length (ld_signal data) ≠ 1%nat) →
  ∃ out',
    process_records rdrecord rdann data_path W S records out
    = Ok (replicate (length records) [], [], out').
Proof.
  intros HW HS Hne Hshort.
  assert (no_interrupt rdrecord rdann data_path records) as Hint.
  { intros r msg Hr Hload.
    destruct (Hshort r Hr) as (data & labs & Hload' & _). congruence. }
  destruct (process_records_contributions rdrecord rdann data_path W S
              records out Hint) as [out' ->].
  exists out'.
  assert (omap (record_contribution rdrecord rdann data_path W S) records
          = replicate (length records) ([], [])) as ->.
  { clear Hne Hint. induction records as [|r records IH]; [done|].
    cbn [omap list_omap length replicate].
    destruct (Hshort r) as (data & labs & Hload & Hlabs & Hlt & H1);
      [apply list_elem_of_here|].
    destruct (contribution_labelled _ _ _ _ _ _ _ _ HW HS Hload Hlabs H1)
      as (ws & wl & -> & _ & Hnil & Hwl).
    assert (ws = []) as -> by (apply Hnil; lia).
    rewrite (Hwl eq_refl), IH; [done|].
    intros r' Hr'. apply Hshort. by apply list_elem_of_further. }
  destruct records as [|r records]; [done|].
  rewrite !fmap_replicate. cbn [fst snd length].
  rewrite np_vstack_all_empty. cbn [mbind result_bind].
  assert (∀ n, concat (replicate n (@nil Z)) = []) as Hnil.
  { intros n. induction n as [|n IH]; [done|]. cbn [replicate concat]. done. }
  by rewrite Hnil.
Qed.

Lemma no_interrupt_300 records :
  no_interrupt rdrecord_300 rdann_three_rhythms "data" records.
Proof. intros r msg _ Hload. vm_compute in Hload. discriminate Hload. Defined.

Lemma process_records_zero_stride_witness :
  no_interrupt rdrecord_300 rdann_three_rhythms "data" ["04015"; "04043"]
  ∧ ∃ out',
      process_records rdrecord_300 rdann_three_rhythms "data" 100 0
        ["04015"; "04043"] [] = Ok ([], [], out').
Proof.
  split; [apply no_interrupt_300|].
  exact (process_records_zero_stride rdrecord_300 rdann_three_rhythms "data"
           100 ["04015"; "04043"] [] (no_interrupt_300 _)).
Defined.

Lemma process_records_aligned_witness :
  0 < 100 ∧ 0 < 50
  ∧ no_interrupt rdrecord_300 rdann_three_rhythms "data" ["04015"; "04043"]
  ∧ ∃ X y out',
      process_records rdrecord_300 rdann_three_rhythms "data" 100 50
        ["04015"; "04043"] [] = Ok (X, y, out')
      ∧ length X = length y
      ∧ Forall (λ row, Z.of_nat (length row) = 100) X.
Proof.
  assert (0 < 100) as HW by lia.
  assert (0 < 50) as HS by lia.
  do 2 (split; [assumption|]). split; [apply no_interrupt_300|].
  destruct (process_records_aligned rdrecord_300 rdann_three_rhythms "data"
              100 50 ["04015"; "04043"] [] HW HS (no_interrupt_300 _))
    as (X & y & out' & Hrun & _ & _ & Hlen & Hrows & _).
  { intros r data labs _ Hload _.
    vm_compute in Hload. injection Hload as <-. vm_compute. discriminate. }
  exists X, y, out'. split; [exact Hrun|]. split; [exact Hlen|exact Hrows].
Defined.


Lemma process_records_all_short_witness :
  0 < 10 ∧ 0 < 5
  ∧ ∃ out',
      process_records rdrecord_three_samples rdann_three_rhythms "data" 10 5
        ["04015"; "04043"] []
      = Ok ([[]; []], [], out').
Proof.
  assert (0 < 10) as HW by lia.
  assert (0 < 5) as HS by lia.
  do 2 (split; [assumption|]).
  apply (process_records_all_short rdrecord_three_samples rdann_three_rhythms
           "data" 10 5 ["04015"; "04043"] [] HW HS).
  - discriminate.
  - intros r _. eexists _, _. split; [reflexivity|]. split; [reflexivity|].
    split; [vm_compute; reflexivity|vm_compute; discriminate].
Defined.

(** ** The catalog, continued *)

Lemma StronglySorted_filter {A} (R : relation A) (P : A → Prop)
    `{∀ x, Decision (P x)} (l : list A) :
  StronglySorted R l → StronglySorted R (filter P l).
Proof.
  induction 1 as [|x l Hs IH Hall]; [constructor|].
  rewrite filter_cons. destruct (decide (P x)); [|done].
  constructor; [done|].
  apply Forall_forall. intros y [_ Hy]%list_elem_of_filter.
  rewrite Forall_forall in Hall. by apply Hall.
Qed.

Lemma get_records_elem (d : Directory) r :
  r ∈ _get_records d ↔
  (¬ ∃ r0, r = r0 +:+ "-")
  ∧ ((r ≠ "" ∧ r +:+ ".hea" ∈ listdir d)
     ∨ (r = ".hea" ∧ ".hea" ∈ listdir d)).
Proof.
  unfold _get_records, glob_hea.
  rewrite merge_sort_Permutation, list_elem_of_filter, list_elem_of_fmap.
  rewrite endswith_false. apply and_iff_compat_l. split.
  - intros (name & -> & Hin). apply list_elem_of_filter in Hin as [Hhea Hin].
    apply endswith_spec in Hhea as [r0 ->].
    destruct (decide (r0 = "")) as [->|Hne].
    + right. split; [reflexivity|exact Hin].
    + left. by rewrite stem_hea.
  - intros [[Hne Hin]|[-> Hin]].
    + exists (r +:+ ".hea"). split; [by rewrite stem_hea|].
      apply list_elem_of_filter. split; [|done].
      apply endswith_spec. by exists r.
    + exists ".hea". split; [done|].
      apply list_elem_of_filter. split; [done|done].
Qed.

(** X12: the records that [build_datasets] hands to the split are sorted
    and are exactly the identifiers that do not end in ["-"], have a
    header entry in the directory and whose [.dat] file exists. *)
Theorem usable_records_spec (d : Directory) :
  Sorted String.le (usable_records d)
  ∧ ∀ r, r ∈ usable_records d ↔
      exists_ d (r +:+ ".dat") = true
      ∧ (¬ ∃ r0, r = r0 +:+ "-")
      ∧ ((r ≠ "" ∧ r +:+ ".hea" ∈ listdir d)
         ∨ (r = ".hea" ∧ ".hea" ∈ listdir d)).
Proof.
  unfold usable_records. split.
  - apply StronglySorted_Sorted, StronglySorted_filter.
    apply StronglySorted_merge_sort; apply _.
  - intros r. by rewrite list_elem_of_filter, get_records_elem.
Qed.

(** X13: when the entries of the directory are pairwise distinct and
    none is named [.hea], no record identifier is listed twice in the
    catalog. *)
Theorem get_records_NoDup (d : Directory) :
  NoDup (listdir d) → ".hea" ∉ listdir d → NoDup (_get_records d).
Proof.
  intros Hnd Hdot. unfold _get_records, glob_hea.
  rewrite merge_sort_Permutation.
  apply NoDup_filter, NoDup_fmap_2_strong; [|by apply NoDup_filter].
  intros x y [Hx Hxin]%list_elem_of_filter [Hy Hyin]%list_elem_of_filter
    Hstem.
  apply endswith_spec in Hx as [rx ->]. apply endswith_spec in Hy as [ry ->].
  assert (rx ≠ "") by (intros ->; by apply Hdot).
  assert (ry ≠ "") by (intros ->; by apply Hdot).
  rewrite !stem_hea in Hstem by done. by subst.
Qed.

Lemma get_records_NoDup_witness :
  NoDup (listdir dir_three) ∧ (".hea" ∉ listdir dir_three)
  ∧ NoDup (_get_records dir_three).
Proof.
  assert (NoDup (listdir dir_three)) as Hnd
    by (apply (bool_decide_unpack _); vm_compute; exact I).
  assert (".hea" ∉ listdir dir_three) as Hdot
    by (apply (bool_decide_unpack _); vm_compute; exact I).
  split; [exact Hnd|]. split; [exact Hdot|].
  exact (get_records_NoDup dir_three Hnd Hdot).
Defined.

(** Two headers with the stem [.hea] are listed twice. *)
Example catalog_with_dot_hea : _get_records dir_dot_hea = [".hea"; ".hea"].
Proof. reflexivity. Qed.

Example usable_of_dir_three : usable_records dir_three = ["04015"; "08455"].
Proof. reflexivity. Qed.

(** ** Shapes through the model, continued *)







Lemma Conv1d_forward_channels c n ch len :
  ch ≠ conv_in_channels c →
  Conv1d_forward c [n; ch; len]
  = Raise (Exception "input channels do not match the weight").
Proof.
  intros Hne. unfold Conv1d_forward.
  by rewrite bool_decide_eq_false_2 by done.
Qed.

Lemma Conv1d_forward_short c n ch len :
  conv_padding c = NoPadding → ch = conv_in_channels c →
  len < conv_kernel_size c →
  Conv1d_forward c [n; ch; len]
  = Raise (Exception "Kernel size can't be greater than actual input size").
Proof.
  intros Hpad -> Hlt. unfold Conv1d_forward, conv_out_len.
  rewrite bool_decide_eq_true_2, Hpad by done.
  by rewrite bool_decide_eq_true_2 by done.
Qed.

(** X15: in evaluation mode the constructed model accepts a batch
    [(n, c, len)] exactly when [c] is the number of input channels it was
    built for and [len ≥ 11]; every other batch makes the forward pass
    raise. *)
Theorem forward_accepts_iff (input_channels output_size n c len : Z) :
  0 < input_channels → 0 ≤ output_size → 0 < n →
  ∃ m,
    KanResWideX_init input_channels output_size = Ok m
    ∧ (KanResWideX_forward false m [n; c; len] = Ok [n; output_size]
       ↔ c = input_channels ∧ 11 ≤ len)
    ∧ (¬ (c = input_channels ∧ 11 ≤ len) →
       ∃ msg, KanResWideX_forward false m [n; c; len]
              = Raise (Exception msg)).
Proof.
  intros Hic Hout Hn.
  eexists. split; [apply KanResWideX_init_Ok; lia|].
  unfold KanResWideX_forward, KanResInit_forward, ReLU_forward.
  cbn [init_block pool res_modules global_pool fc
       init_conv1 init_bn1 init_conv2 init_bn2].
  destruct (decide (c = input_channels)) as [->|Hc].
  2:{ rewrite Conv1d_forward_channels by done. cbn [mbind result_bind].
      split; [split; [done|by intros [? _]]|]. intros _. eauto. }
  destruct (decide (len < 8)) as [H8|H8].
  { rewrite Conv1d_forward_short by done. cbn [mbind result_bind].
    split; [split; [done|lia]|]. intros _. eauto. }
  rewrite Conv1d_forward_unpadded by (simpl; first [done|lia]).
  cbn [mbind result_bind conv_out_channels conv_kernel_size conv_stride].
  rewrite Z.div_1_r.
  rewrite BatchNorm1d_forward_batched by (first [done|by left]).
  cbn [mbind result_bind].
  destruct (decide (len < 10)) as [H10|H10].
  { rewrite Conv1d_forward_short by (simpl; first [done|lia]).
    cbn [mbind result_bind].
    split; [split; [done|lia]|]. intros _. eauto. }
  rewrite Conv1d_forward_unpadded by (simpl; first [done|lia]).
  cbn [mbind result_bind conv_out_channels conv_kernel_size conv_stride].
  rewrite Z.div_1_r.
  rewrite BatchNorm1d_forward_batched by (first [done|by left]).
  cbn [mbind result_bind].
  unfold AvgPool1d_forward. cbn [pool_kernel_size].
  assert ((len - 8 + 1 - 3 + 1 - 2) `div` 2 + 1 = pooled_length len) as ->.
  { unfold pooled_length.
    replace (len - 8 + 1 - 3 + 1 - 2) with (len - 9 + (-1) * 2) by lia.
    rewrite Z.div_add by done. lia. }
  destruct (decide (len = 10)) as [->|H11].
  { change (pooled_length 10) with 0.
    rewrite bool_decide_eq_true_2 by lia. cbn [mbind result_bind].
    split; [split; [done|lia]|]. intros _. eauto. }
  assert (1 ≤ pooled_length len) as Hpl.
  { unfold pooled_length. apply Z.div_le_lower_bound; lia. }
  rewrite (bool_decide_eq_false_2 (pooled_length len < 1)) by lia.
  cbn [mbind result_bind].
  rewrite (res_stack_forward false 8 n (pooled_length len)) by (by left).
  cbn [mbind result_bind]. unfold AdaptiveAvgPool1d_forward.
  rewrite (bool_decide_eq_false_2 (pooled_length len ≤ 0)) by lia.
  split; [split; [intros _; split; [done|lia]|intros _; reflexivity]|].
  intros Hnot. destruct Hnot. split; [done|lia].
Qed.

Lemma forward_accepts_iff_witness :
  0 < 1 ∧ 0 ≤ 4 ∧ 0 < 8
  ∧ ∃ m,
      KanResWideX_init 1 4 = Ok m
      ∧ ∃ msg, KanResWideX_forward false m [8; 2; 1000]
               = Raise (Exception msg).
Proof.
  assert (0 < 1) as Hic by lia.
  assert (0 ≤ 4) as Hout by lia.
  assert (0 < 8) as Hn by lia.
  do 3 (split; [assumption|]).
  destruct (forward_accepts_iff 1 4 8 2 1000 Hic Hout Hn)
    as (m & Hinit & _ & Hraise).
  exists m. split; [exact Hinit|].
  apply Hraise. intros [Hc _]. discriminate Hc.
Defined.

(** ** Dataset statistics *)

Lemma Qdiv_nonneg (a : Z) (fs : Q) :
  0 ≤ a → (0 < fs)%Q → (0 <= inject_Z a / fs)%Q.
Proof.
  intros Ha Hfs. apply Qle_shift_div_l; [done|].
  rewrite Qmult_0_l. unfold Qle, inject_Z. simpl. lia.
Qed.

Lemma Qdiv_nonpos (a : Z) (fs : Q) :
  0 ≤ a → ¬ (0 < fs)%Q → (inject_Z a / fs <= 0)%Q.
Proof.
  intros Ha Hfs. destruct fs as [[|p|p] q];
    unfold Qlt, Qle, Qdiv, Qmult, Qinv, inject_Z in *; simpl in *; lia.
Qed.

Lemma Qpositive_spec x : Qpositive x = true ↔ (0 < x)%Q.
Proof.
  unfold Qpositive. rewrite negb_true_iff.
  destruct (Qle_bool x 0) eqn:Hle.
  - apply Qle_bool_iff in Hle. split; [done|].
    intros Hlt. exfalso. by apply (Qlt_not_le 0 x).
  - split; [intros _|done]. apply Qnot_le_lt. intros Hle'.
    apply Qle_bool_iff in Hle'. congruence.
Qed.

(** A positive total of the two durations needs a positive sampling
    frequency and at least one sample labelled AF or normal. *)
Lemma total_positive (a n : Z) (fs : Q) :
  0 ≤ a → 0 ≤ n →
  (0 < inject_Z a / fs + inject_Z n / fs)%Q ↔ (0 < fs)%Q ∧ 0 < a + n.
Proof.
  intros Ha Hn. split.
  - intros Htotal.
    destruct (Qlt_le_dec 0 fs) as [Hfs|Hfs].
    + split; [done|].
      destruct (decide (a + n = 0)) as [H0|H0]; [|lia].
      assert (a = 0) as -> by lia. assert (n = 0) as -> by lia.
      exfalso. revert Htotal. unfold Qdiv. rewrite !Qmult_0_l.
      by intros ?%Qlt_irrefl.
    + exfalso. apply Qle_not_lt in Hfs.
      pose proof (Qdiv_nonpos a fs Ha Hfs) as H1.
      pose proof (Qdiv_nonpos n fs Hn Hfs) as H2.
      apply (Qlt_not_le _ _ Htotal).
      rewrite <- (Qplus_0_r 0). by apply Qplus_le_compat.
  - intros [Hfs Hpos].
    pose proof (Qdiv_nonneg a fs Ha Hfs) as H1.
    pose proof (Qdiv_nonneg n fs Hn Hfs) as H2.
    assert (0 < a ∨ 0 < n) as [Hlt|Hlt] by lia.
    + rewrite <- (Qplus_0_r 0). apply Qplus_lt_le_compat; [|done].
      apply Qlt_shift_div_l; [done|]. rewrite Qmult_0_l.
      unfold Qlt, inject_Z. simpl. lia.
    + rewrite <- (Qplus_0_r 0), (Qplus_comm (inject_Z a / fs)).
      apply Qplus_lt_le_compat; [|done].
      apply Qlt_shift_div_l; [done|]. rewrite Qmult_0_l.
      unfold Qlt, inject_Z. simpl. lia.
Qed.

Lemma count_label_nonneg name labels : 0 ≤ count_label name labels.
Proof. unfold count_label. lia. Qed.

Lemma count_label_pos name labels :
  0 < count_label name labels ↔ name ∈ labels.
Proof.
  unfold count_label. split.
  - intros Hpos.
    destruct (filter (λ x, x = name) labels) as [|x l] eqn:Hf;
      [simpl in Hpos; lia|].
    assert (x ∈ filter (λ x, x = name) labels) as Hx
      by (rewrite Hf; apply list_elem_of_here).
    apply list_elem_of_filter in Hx as [-> Hx]. done.
  - intros Hin.
    assert (name ∈ filter (λ x, x = name) labels) as Hx
      by (by apply list_elem_of_filter).
    destruct (filter (λ x, x = name) labels);
      [by apply not_elem_of_nil in Hx|simpl; lia].
Qed.

(** Which records get a row, and what the row holds. *)
Lemma stats_row_Some {F : Type}
    (rdrecord : string → option (list Z) → result (WfdbRecord F))
    (rdann : string → string → result Annotation)
    (data_path record : string) (row : StatRow) :
  stats_row rdrecord rdann data_path record = Some row →
  ∃ data labels,
    load_record rdrecord rdann data_path record (Some [0]) = Ok data
    ∧ ld_rhythm_labels data = Some labels
    ∧ (0 < ld_fs data)%Q
    ∧ ("atrial_fibrillation" ∈ labels ∨ "normal" ∈ labels)
    ∧ st_record row = record
    ∧ (0 <= af_duration_h row)%Q
    ∧ (0 <= normal_duration_h row)%Q
    ∧ (0 <= af_percent row <= 100)%Q.
Proof.
  unfold stats_row.
  destruct (load_record _ _ _ _ _) as [data|] eqn:Hload; [|done].
  destruct (ld_rhythm_labels data) as [labels|] eqn:Hlabels; [|done].
  set (a := count_label "atrial_fibrillation" labels).
  set (n := count_label "normal" labels).
  pose proof (count_label_nonneg "atrial_fibrillation" labels) as Ha.
  pose proof (count_label_nonneg "normal" labels) as Hn. fold a n in Ha, Hn.
  destruct (Qpositive _) eqn:Hpos; [|done]. intros [= <-].
  apply Qpositive_spec in Hpos. pose proof Hpos as Htotal.
  apply total_positive in Hpos as [Hfs Han]; [|done..].
  pose proof (Qdiv_nonneg a (ld_fs data) Ha Hfs) as H1.
  pose proof (Qdiv_nonneg n (ld_fs data) Hn Hfs) as H2.
  exists data, labels. do 3 (split; [done|]).
  split.
  { assert (0 < a ∨ 0 < n) as [?|?] by lia;
      [left|right]; by apply count_label_pos. }
  cbn [st_record af_duration_h normal_duration_h af_percent].
  split; [done|].
  split; [apply Qle_shift_div_l; [done|by rewrite Qmult_0_l]|].
  split; [apply Qle_shift_div_l; [done|by rewrite Qmult_0_l]|].
  split.
  - apply Qmult_le_0_compat; [|done].
    apply Qle_shift_div_l; [done|by rewrite Qmult_0_l].
  - rewrite <- (Qmult_1_l 100) at 2.
    apply Qmult_le_compat_r; [|done].
    apply Qle_shift_div_r; [done|]. rewrite Qmult_1_l.
    rewrite <- (Qplus_0_r (inject_Z a / ld_fs data)) at 1.
    by apply Qplus_le_compat; [apply Qle_refl|].
Qed.

Lemma stats_record_row {F : Type}
    (rdrecord : string → option (list Z) → result (WfdbRecord F))
    (rdann : string → string → result Annotation)
    (data_path : string) (acc : StatsAccum) (r : string) :
  (∀ msg, load_record rdrecord rdann data_path r (Some [0])
          ≠ Raise (BaseException msg)) →
  ∃ out,
    stats_record rdrecord rdann data_path acc r =
    Ok {| stats := stats acc
                   ++ option_list (stats_row rdrecord rdann data_path r);
          stats_printed := out |}.
Proof.
  intros Hint. unfold stats_record, stats_try, stats_row.
  destruct (load_record rdrecord rdann data_path r (Some [0]))
    as [data|[msg|msg]] eqn:Hload; cbn [mbind result_bind].
  - destruct (ld_rhythm_labels data) as [labels|].
    + destruct (Qpositive _).
      * eexists. reflexivity.
      * exists (stats_printed acc). simpl. rewrite app_nil_r.
        by destruct acc.
    + exists (stats_printed acc). simpl. rewrite app_nil_r. by destruct acc.
  - eexists. simpl. by rewrite app_nil_r.
  - by destruct (Hint msg).
Qed.

Lemma stats_loop_rows {F : Type}
    (rdrecord : string → option (list Z) → result (WfdbRecord F))
    (rdann : string → string → result Annotation)
    (data_path : string) (records : list string) (acc : StatsAccum) :
  no_interrupt rdrecord rdann data_path records →
  ∃ out,
    for_each (stats_record rdrecord rdann data_path) records acc =
    Ok {| stats := stats acc
                   ++ omap (stats_row rdrecord rdann data_path) records;
          stats_printed := out |}.
Proof.
  revert acc. induction records as [|r records IH]; intros acc Hint.
  - exists (stats_printed acc). simpl. rewrite app_nil_r. by destruct acc.
  - destruct (stats_record_row rdrecord rdann data_path acc r) as [out1 Hstep].
    { intros msg. apply Hint. apply list_elem_of_here. }
    cbn [for_each]. rewrite Hstep. cbn [mbind result_bind].
    edestruct IH as [out2 Hrest].
    { intros r' msg Hr'. apply Hint. by apply list_elem_of_further. }
    exists out2. rewrite Hrest. cbn [stats omap list_omap].
    destruct (stats_row _ _ _ r); simpl; by rewrite <- ?app_assoc, ?app_nil_r.
Qed.

(** X17: [get_stats] raises [KeyError] instead of returning an empty
    frame whenever no record contributes a row: on an empty catalog, and
    more generally when no record that loads with labels has a sample
    labelled AF or normal. *)
Theorem get_stats_no_rows {F : Type}
    (rdrecord : string → option (list Z) → result (WfdbRecord F))
    (rdann : string → string → result Annotation)
    (format_1f : Q → string) (data_path : string) (records : list string) :
  no_interrupt rdrecord rdann data_path records →
  (∀ r data labels,
     r ∈ records →
     load_record rdrecord rdann data_path r (Some [0]) = Ok data →
     ld_rhythm_labels data = Some labels →
     ("atrial_fibrillation" ∉ labels) ∧ ("normal" ∉ labels)) →
  get_stats rdrecord rdann format_1f data_path records
  = Raise (Exception "'af_duration_h'").
Proof.
  intros Hint Hnone. unfold get_stats.
  destruct (stats_loop_rows rdrecord rdann data_path records
              {| stats := []; stats_printed := [] |} Hint) as [out ->].
  cbn [mbind result_bind stats app].
  assert (omap (stats_row rdrecord rdann data_path) records = []) as ->;
    [|done].
  clear Hint. induction records as [|r records IH]; [done|].
  cbn [omap list_omap]. rewrite IH.
  2:{ intros r' data labels Hr'. apply Hnone. by apply list_elem_of_further. }
  destruct (stats_row _ _ _ r) as [row|] eqn:Hrow; [|done].
  apply stats_row_Some in Hrow
    as (data & labels & Hload & Hlabels & _ & Hin & _).
  destruct (Hnone r data labels (list_elem_of_here _ _) Hload Hlabels)
    as [Haf Hnormal].
  by destruct Hin.
Qed.

(** X18: when some record contributes a row, [get_stats] returns one row
    per record that loads with labels, has a positive sampling frequency
    and at least one sample labelled AF or normal, in catalog order; in
    every row the two durations are not negative and [af_percent] lies
    between 0 and 100. *)
Theorem get_stats_rows {F : Type}
    (rdrecord : string → option (list Z) → result (WfdbRecord F))
    (rdann : string → string → result Annotation)
    (format_1f : Q → string) (data_path : string) (records : list string)
    (r0 : string) (row0 : StatRow) :
  no_interrupt rdrecord rdann data_path records →
  r0 ∈ records →
  stats_row rdrecord rdann data_path r0 = Some row0 →
  ∃ out,
    get_stats rdrecord rdann format_1f data_path records
    = Ok (omap (stats_row rdrecord rdann data_path) records, out)
    ∧ Forall
        (λ row,
           st_record row ∈ records
           ∧ (∃ data labels,
                load_record rdrecord rdann data_path (st_record row)
                  (Some [0]) = Ok data
                ∧ ld_rhythm_labels data = Some labels
                ∧ (0 < ld_fs data)%Q
                ∧ ("atrial_fibrillation" ∈ labels ∨ "normal" ∈ labels))
           ∧ (0 <= af_duration_h row)%Q
           ∧ (0 <= normal_duration_h row)%Q
           ∧ (0 <= af_percent row <= 100)%Q)
        (omap (stats_row rdrecord rdann data_path) records).
Proof.
  intros Hint Hr0 Hrow0. unfold get_stats.
  destruct (stats_loop_rows rdrecord rdann data_path records
              {| stats := []; stats_printed := [] |} Hint) as [out ->].
  cbn [mbind result_bind stats stats_printed app].
  assert (row0 ∈ omap (stats_row rdrecord rdann data_path) records) as Hin.
  { apply list_elem_of_omap. by exists r0. }
  destruct (omap _ records) as [|row rows] eqn:Hrows;
    [by apply not_elem_of_nil in Hin|].
  eexists. split; [reflexivity|].
  rewrite <- Hrows. apply Forall_forall. intros row' Hrow'.
  apply list_elem_of_omap in Hrow' as (r & Hr & Hrow').
  apply stats_row_Some in Hrow'
    as (data & labels & Hload & Hlabels & Hfs & Hany & <- & H1 & H2 & H3).
  split; [done|]. split; [by exists data, labels|]. done.
Qed.

Lemma get_stats_no_rows_witness :
  no_interrupt rdrecord_300 rdann_missing "data" ["04015"; "04043"]
  ∧ get_stats rdrecord_300 rdann_missing format_numerator "data"
      ["04015"; "04043"]
    = Raise (Exception "'af_duration_h'").
Proof.
  assert (no_interrupt rdrecord_300 rdann_missing "data" ["04015"; "04043"])
    as Hint.
  { intros r msg _ Hload. vm_compute in Hload. discriminate Hload. }
  split; [exact Hint|].
  apply (get_stats_no_rows rdrecord_300 rdann_missing format_numerator "data"
           ["04015"; "04043"] Hint).
  intros r data labels _ Hload Hlabels.
  vm_compute in Hload. injection Hload as <-. discriminate Hlabels.
Defined.

Lemma get_stats_rows_witness :
  no_interrupt rdrecord_300 rdann_three_rhythms "data" ["04015"]
  ∧ "04015" ∈ ["04015"]
  ∧ ∃ row0 out,
      stats_row rdrecord_300 rdann_three_rhythms "data" "04015" = Some row0
      ∧ get_stats rdrecord_300 rdann_three_rhythms format_numerator "data"
          ["04015"]
        = Ok ([row0], out)
      ∧ (0 <= af_percent row0 <= 100)%Q.
Proof.
  split; [apply no_interrupt_300|]. split; [apply list_elem_of_here|].
  destruct (stats_row rdrecord_300 rdann_three_rhythms "data" "04015")
    as [row0|] eqn:Hrow0; [|vm_compute in Hrow0; discriminate Hrow0].
  destruct (get_stats_rows rdrecord_300 rdann_three_rhythms format_numerator
              "data" ["04015"] "04015" row0 (no_interrupt_300 _)
              (list_elem_of_here _ _) Hrow0) as (out & Hrun & Hall).
  cbn [omap list_omap] in Hrun, Hall. rewrite Hrow0 in Hrun, Hall.
  exists row0, out. split; [reflexivity|]. split; [exact Hrun|].
  apply Forall_cons in Hall as [(_ & _ & _ & _ & Hpct) _]. exact Hpct.
Defined.

Example get_stats_empty_catalog :
  get_stats rdrecord_300 rdann_three_rhythms format_numerator "data" []
  = Raise (Exception "'af_duration_h'").
Proof. reflexivity. Qed.

(** ** A record of one sample *)

(** X19: a record with rhythm labels and exactly one sample is skipped
    with an error message: [squeeze()] turns its [(1, 1)] signal into a
    0-d array, on which [len] raises inside the [try]. *)
Theorem process_record_single_sample {F : Type}
    (rdrecord : string → option (list Z) → result (WfdbRecord F))
    (rdann : string → string → result Annotation)
    (data_path : string) (W S : Z) (acc : Accum F) (r : string)
    (data : LoadedRecord F) (labs : list string) (x : F) :
  load_record rdrecord rdann data_path r (Some [0]) = Ok data →
  ld_rhythm_labels data = Some labs →
  ld_signal data = [x] →
  process_record rdrecord rdann data_path W S acc r =
  Ok {| all_windows := all_windows acc;
        all_labels := all_labels acc;
        printed := printed acc
                   ++ ["Error with " +:+ r +:+ ": len() of unsized object"] |}.
Proof.
  intros Hload Hlabs Hsig. unfold process_record, try_record.
  rewrite Hload. cbn [mbind result_bind]. by rewrite Hlabs, Hsig.
Qed.

Lemma process_record_single_sample_witness :
  ∃ data labs,
    load_record rdrecord_one_sample rdann_three_rhythms "data" "04015"
      (Some [0]) = Ok data
    ∧ ld_rhythm_labels data = Some labs
    ∧ ld_signal data = [7]
    ∧ process_record rdrecord_one_sample rdann_three_rhythms "data" 1 1
        {| all_windows := []; all_labels := []; printed := [] |} "04015"
      = Ok {| all_windows := []; all_labels := [];
              printed := ["Error with 04015: len() of unsized object"] |}.
Proof.
  eexists _, _. split; [reflexivity|]. split; [reflexivity|].
  split; [reflexivity|].
  exact (process_record_single_sample rdrecord_one_sample rdann_three_rhythms
           "data" 1 1 {| all_windows := []; all_labels := []; printed := [] |}
           "04015" _ _ 7 eq_refl eq_refl eq_refl).
Defined.
